(** * gcode-converter: geometry normalisation and toolpath emission

    Shallow embedding of [src/image_to_gcode.py] and [src/svg_to_gcode.py].

    Conventions of the embedding.
    - A Python [float] is an exact rational extended with [inf], [-inf] and
      [nan] (type [pyfloat]); rounding error and the sign of zero are not
      represented, so "equal within floating-point tolerance" is stated as
      equality of rationals ([==], lifted to [feq]).
    - Numbers read from the command line and from the SVG parser are finite
      and carried as [Q]; [int] arguments ([--power], [--feed_rate]) and
      pixel coordinates are [Z].
    - Pixel coordinates are unbounded integers: the wrap-around of 32-bit
      integers, and the rounding and overflow of doubles, are not
      represented.
    - Strings are byte strings and [str.split] is modelled on ASCII white
      space.
    - The programs are modelled from the parsed input ([svg2paths2], [imread]
      and the image operations are given) to the text handed to the output
      file; failures of parsing and of file input and output are outside.
    - A raised exception is a value [Raise e] of the [result] type.
    - Every string written to the output file by one [f.write] / [+=] of the
      source is one [gline]; [render] gives its text. *)

From Stdlib Require Import ZArith QArith Qabs Lqa Lia List String Ascii DecimalString.
From Stdlib Require DecimalN.
From stdpp Require Import base strings gmap.
Import ListNotations.

Open Scope string_scope.
Open Scope list_scope.
Open Scope Z_scope.

(** ** Exceptions *)

Inductive pyexn : Set := ValueError | NameError | IndexError | ZeroDivisionError.

Inductive result (A : Type) : Type :=
| Ok (a : A)
| Raise (e : pyexn).
Arguments Ok {A} a.
Arguments Raise {A} e.

Definition rbind {A B : Type} (r : result A) (k : A -> result B) : result B :=
  match r with
  | Ok a => k a
  | Raise e => Raise e
  end.

Notation "'try' x <- r ; k" := (rbind r (fun x => k))
  (at level 10, x pattern, r at level 100, k at level 200).

Definition is_ok {A : Type} (r : result A) : bool :=
  match r with Ok _ => true | Raise _ => false end.

(** ** Python floats *)

Inductive pyfloat : Set :=
| Fin (q : Q)
| PInf
| NInf
| NaN.

Definition Qlt_bool (a b : Q) : bool := negb (Qle_bool b a).

(** [a < b] on floats; every comparison with [nan] is false. *)
Definition flt (a b : pyfloat) : bool :=
  match a, b with
  | NaN, _ | _, NaN => false
  | Fin x, Fin y => Qlt_bool x y
  | NInf, NInf => false
  | NInf, _ => true
  | _, PInf => match a with PInf => false | _ => true end
  | _, _ => false
  end.

Definition fneg (a : pyfloat) : pyfloat :=
  match a with
  | Fin x => Fin (- x)
  | PInf => NInf
  | NInf => PInf
  | NaN => NaN
  end.

Definition fadd (a b : pyfloat) : pyfloat :=
  match a, b with
  | NaN, _ | _, NaN => NaN
  | Fin x, Fin y => Fin (x + y)
  | PInf, NInf | NInf, PInf => NaN
  | PInf, _ | _, PInf => PInf
  | NInf, _ | _, NInf => NInf
  end.

Definition fsub (a b : pyfloat) : pyfloat := fadd a (fneg b).

(** Sign of a float that is neither zero nor [nan]: [true] when negative. *)
Definition fnegative (a : pyfloat) : bool :=
  match a with
  | Fin x => Qlt_bool x 0
  | NInf => true
  | _ => false
  end.

Definition fzero (a : pyfloat) : bool :=
  match a with
  | Fin x => Qeq_bool x 0
  | _ => false
  end.

Definition fmul (a b : pyfloat) : pyfloat :=
  match a, b with
  | NaN, _ | _, NaN => NaN
  | Fin x, Fin y => Fin (x * y)
  | _, _ =>
      if fzero a || fzero b then NaN
      else if xorb (fnegative a) (fnegative b) then NInf else PInf
  end.

(** [a / b]: Python raises [ZeroDivisionError] on a zero divisor whatever the
    dividend; otherwise the IEEE quotient. *)
Definition fdiv (a b : pyfloat) : result pyfloat :=
  if fzero b then Raise ZeroDivisionError
  else Ok match a, b with
          | NaN, _ | _, NaN => NaN
          | Fin x, Fin y => Fin (x / y)
          | Fin _, _ => Fin 0
          | _, Fin _ => if xorb (fnegative a) (fnegative b) then NInf else PInf
          | _, _ => NaN
          end.

(** The builtin [min(a, b)] keeps its first argument unless a later one is
    strictly smaller; [max(a, b)] unless a later one is strictly larger. *)
Definition py_min2 (a b : pyfloat) : pyfloat := if flt b a then b else a.
Definition py_max2 (a b : pyfloat) : pyfloat := if flt a b then b else a.
Definition py_min3 (a b c : pyfloat) : pyfloat := py_min2 (py_min2 a b) c.
Definition py_max3 (a b c : pyfloat) : pyfloat := py_max2 (py_max2 a b) c.

(** Equality of floats up to the representation of the rational. *)
Definition feq (a b : pyfloat) : Prop :=
  match a, b with
  | Fin x, Fin y => (x == y)%Q
  | PInf, PInf | NInf, NInf | NaN, NaN => True
  | _, _ => False
  end.

(** ** Text formatting *)

(** [str(n)] for an [int]. *)
Definition str_int (n : Z) : string := NilZero.string_of_int (Z.to_int n).

(** Decimal digits of a natural number given as a non-negative [Z]. *)
Definition str_nat (n : Z) : string := NilZero.string_of_uint (N.to_uint (Z.to_N n)).

Definition digit_char (d : Z) : ascii := ascii_of_nat (48 + Z.to_nat d).

(** Nearest integer to a non-negative rational, ties to even: the rounding
    of the [f] presentation type. *)
Definition round_half_even (q : Q) : Z :=
  let n := Qnum q in
  let d := Z.pos (Qden q) in
  let fl := n / d in
  let r := n mod d in
  match 2 * r ?= d with
  | Lt => fl
  | Gt => fl + 1
  | Eq => if Z.even fl then fl else fl + 1
  end.

(** [f"{q:.3f}"] for a finite value. *)
Definition format_3f_Q (q : Q) : string :=
  let m := round_half_even (Qabs q * 1000) in
  (if Qlt_bool q 0 then "-" else "")
    +:+ str_nat (m / 1000)
    +:+ "."
    +:+ String (digit_char (m mod 1000 / 100))
          (String (digit_char (m mod 100 / 10))
             (String (digit_char (m mod 10)) "")).

(** [f"{x:.3f}"]. *)
Definition format_3f (x : pyfloat) : string :=
  match x with
  | Fin q => format_3f_Q q
  | PInf => "inf"
  | NInf => "-inf"
  | NaN => "nan"
  end.

Definition newline : string := String (ascii_of_nat 10) "".

(** ** Output lines *)

(** The four spellings of the laser-off line in the two programs. *)
Inductive m5_note : Set :=
| EnsureOff   (* image_to_gcode.py:24 *)
| TurnOff     (* image_to_gcode.py:38 *)
| StartOff    (* svg_to_gcode.py:97 *)
| Bare.       (* svg_to_gcode.py:61 *)

Inductive gline : Set :=
| G21
| G90
| M5 (note : m5_note)
| G0 (x y : pyfloat)
| M3 (power : Z)
| G1 (x y : pyfloat) (feed_rate : Z)
| G0_X0_Y0.

Definition note_text (n : m5_note) : string :=
  match n with
  | EnsureOff => " ; Ensure the laser is off to start"
  | TurnOff => " ; Turn off the laser"
  | StartOff => " ; Start with laser off"
  | Bare => ""
  end.

Definition render (l : gline) : string :=
  match l with
  | G21 => "G21 ; Set units to millimeters" +:+ newline
  | G90 => "G90 ; Absolute positioning" +:+ newline
  | M5 n => "M5" +:+ note_text n +:+ newline
  | G0 x y => "G0 X" +:+ format_3f x +:+ " Y" +:+ format_3f y +:+ newline
  | M3 p => "M3 S" +:+ str_int p +:+ newline
  | G1 x y f =>
      "G1 X" +:+ format_3f x +:+ " Y" +:+ format_3f y +:+ " F" +:+ str_int f +:+ newline
  | G0_X0_Y0 => "G0 X0 Y0" +:+ newline
  end.

(** The text of the output file: the written strings, in order. *)
Definition file_text (ls : list gline) : string :=
  fold_right String.append "" (map render ls).


(** ** image_to_gcode.py *)

(** A contour is the list of its points; [point[0]] is a pair of pixel
    coordinates. *)
Definition contour : Type := list (Z * Z).

(** A single-channel image as its rows; [cv2.flip(src, 0)] mirrors it about
    the horizontal axis: [dst[i] = src[rows - 1 - i]]. *)
Definition bitmap : Type := list (list Z).

Definition cv2_flip0 (binary : bitmap) : bitmap := rev binary.

(** The body of the [for i, point in enumerate(contour)] loop: the state is
    the next index and the lines written so far. *)
Definition point_step (power feed_rate : Z) (scale_factor offset_x offset_y : Q)
    (st : nat * list gline) (point : Z * Z) : nat * list gline :=
  let '(i, out) := st in
  let '(x, y) := point in
  let x := (inject_Z x * scale_factor + offset_x)%Q in
  let y := (inject_Z y * scale_factor + offset_y)%Q in
  (S i,
   if Nat.eqb i 0
   then out ++ [G0 (Fin x) (Fin y); M3 power]
   else out ++ [G1 (Fin x) (Fin y) feed_rate]).

(** The body of the [for contour in contours] loop. *)
Definition contour_step (power feed_rate : Z) (scale_factor offset_x offset_y : Q)
    (out : list gline) (c : contour) : list gline :=
  snd (fold_left (point_step power feed_rate scale_factor offset_x offset_y) c (0%nat, out))
    ++ [M5 TurnOff].

Definition generate_gcode (contours : list contour) (power feed_rate : Z)
    (scale_factor offset_x offset_y : Q) : list gline :=
  let out := [G21; G90; M5 EnsureOff] in
  let out := fold_left (contour_step power feed_rate scale_factor offset_x offset_y) contours out in
  out ++ [G0_X0_Y0].

(** [max(img.shape)]. *)
Definition py_max_shape (shape : list Z) : result Z :=
  match shape with
  | [] => Raise ValueError
  | d :: ds => Ok (fold_left Z.max ds d)
  end.

(** [img.shape[-1]]. *)
Definition py_last_dim (shape : list Z) : result Z :=
  match rev shape with
  | [] => Raise IndexError
  | d :: _ => Ok d
  end.

(** Lines 98-106 of [image_to_gcode]: scale factor and offsets.  Both tests
    are truth tests: a target of [0.0] counts as absent. *)
Definition raster_transform (shape : list Z) (longest_side : option Q)
    (center_offset : option (Q * Q)) : result (Q * Q * Q) :=
  try scale_factor <-
    match longest_side with
    | None => Ok 1%Q
    | Some t =>
        if Qeq_bool t 0 then Ok 1%Q
        else
          try current_longest_side_pixels <- py_max_shape shape;
          if current_longest_side_pixels =? 0 then Raise ZeroDivisionError
          else Ok (t / inject_Z current_longest_side_pixels)%Q
    end;
  let '(offset_x, offset_y) :=
    match center_offset with
    | Some c => c
    | None => (0%Q, 0%Q)
    end in
  Ok (scale_factor, offset_x, offset_y).

Section Raster.

(** What OpenCV and NumPy provide: the decoded image with its [shape], the
    slice [img[:, :, :3]], grey conversion followed by thresholding
    (lines 79-90), the blur, and contour extraction. *)
Variable image : Type.
Variable shape : image -> list Z.
Variable drop_alpha : image -> image.
Variable threshold_image : image -> option Q -> bitmap.
Variable GaussianBlur : bitmap -> Q -> bitmap.
Variable findContours : bitmap -> list contour.

(** The contours handed to the emitter: lines 75-96. *)
Definition image_contours (img : image) (threshold : option Q) : result (image * list contour) :=
  try last_dim <- py_last_dim (shape img);
  let img := if last_dim =? 4 then drop_alpha img else img in
  let binary := threshold_image img threshold in
  let binary := cv2_flip0 binary in
  try m <- py_max_shape (shape img);
  let binary := GaussianBlur binary (inject_Z m * (5 # 10000))%Q in
  Ok (img, findContours binary).

(** [imread] is [None] when the file cannot be decoded. *)
Definition image_to_gcode (imread : option image) (threshold : option Q)
    (power feed_rate : Z) (longest_side : option Q) (center_offset : option (Q * Q))
    : result (list gline) :=
  match imread with
  | None => Raise ValueError
  | Some img =>
      try (img, contours) <- image_contours img threshold;
      try (scale_factor, offset_x, offset_y) <-
        raster_transform (shape img) longest_side center_offset;
      Ok (generate_gcode contours power feed_rate scale_factor offset_x offset_y)
  end.

End Raster.

(** ** svg_to_gcode.py *)

Record complex : Set := Complex { real : Q; imag : Q }.

(** The segment classes of svgpathtools; each has a [start] and an [end]. *)
Inductive segment : Set :=
| Line (start end_ : complex)
| QuadraticBezier (start control end_ : complex)
| CubicBezier (start control1 control2 end_ : complex)
| Arc (start radius : complex) (rotation : Q) (large_arc sweep : bool) (end_ : complex).

Definition seg_start (s : segment) : complex :=
  match s with
  | Line a _ | QuadraticBezier a _ _ | CubicBezier a _ _ _ | Arc a _ _ _ _ _ => a
  end.

Definition seg_end (s : segment) : complex :=
  match s with
  | Line _ b | QuadraticBezier _ _ b | CubicBezier _ _ _ b | Arc _ _ _ _ _ b => b
  end.

(** [segment.start = v] and [segment.end = v]. *)
Definition set_start (s : segment) (v : complex) : segment :=
  match s with
  | Line _ b => Line v b
  | QuadraticBezier _ c b => QuadraticBezier v c b
  | CubicBezier _ c1 c2 b => CubicBezier v c1 c2 b
  | Arc _ r rot la sw b => Arc v r rot la sw b
  end.

Definition set_end (s : segment) (v : complex) : segment :=
  match s with
  | Line a _ => Line a v
  | QuadraticBezier a c _ => QuadraticBezier a c v
  | CubicBezier a c1 c2 _ => CubicBezier a c1 c2 v
  | Arc a r rot la sw _ => Arc a r rot la sw v
  end.

Definition path : Type := list segment.

Record bbox : Set := BBox { min_x : pyfloat; min_y : pyfloat; max_x : pyfloat; max_y : pyfloat }.

(** Lines 19-24. *)
Definition bbox_init : bbox := BBox PInf PInf NInf NInf.

(** Lines 28-31. *)
Definition scan_line (b : bbox) (line : segment) : bbox :=
  let s := seg_start line in
  let e := seg_end line in
  BBox (py_min3 (min_x b) (Fin (real s)) (Fin (real e)))
       (py_min3 (min_y b) (Fin (imag s)) (Fin (imag e)))
       (py_max3 (max_x b) (Fin (real s)) (Fin (real e)))
       (py_max3 (max_y b) (Fin (imag s)) (Fin (imag e))).

(** Lines 26-31. *)
Definition scan_paths (paths : list path) : bbox :=
  fold_left (fun b p => fold_left scan_line p b) paths bbox_init.

(** Lines 36-37: the two assignments, in order. *)
Definition flip_line (svg_height : Q) (line : segment) : segment :=
  let line := set_start line
                (Complex (real (seg_start line)) (svg_height - imag (seg_start line))) in
  set_end line (Complex (real (seg_end line)) (svg_height - imag (seg_end line))).

(** Lines 34-37.  The segments are updated in place; the updated paths are
    returned as the new value of the caller's [paths].  The parser builds
    one object per segment, so no segment is reached twice by the loop. *)
Definition flip_paths (svg_height : Q) (paths : list path) : list path :=
  map (map (flip_line svg_height)) paths.

(** [str.isspace] on the ASCII range, and [str.split()]. *)
Definition py_isspace (c : ascii) : bool :=
  let n := nat_of_ascii c in
  ((9 <=? n) && (n <=? 13) || (28 <=? n) && (n <=? 32))%nat.

Fixpoint py_split_from (cur : string) (s : string) : list string :=
  match s with
  | EmptyString => match cur with EmptyString => [] | _ => [cur] end
  | String c s' =>
      if py_isspace c
      then match cur with
           | EmptyString => py_split_from EmptyString s'
           | _ => cur :: py_split_from EmptyString s'
           end
      else py_split_from (cur +:+ String c EmptyString) s'
  end.

Definition py_split (s : string) : list string := py_split_from EmptyString s.

Definition longest_side_of (b : bbox) : pyfloat :=
  py_max2 (fsub (max_x b) (min_x b)) (fsub (max_y b) (min_y b)).

(** Lines 47-62. *)
Definition segment_lines (scale_factor min_x offset_x offset_y : pyfloat)
    (feed_rate power : Z) (sg : segment) : list gline :=
  let start_x := fadd (fmul (fsub (Fin (real (seg_start sg))) min_x) scale_factor) offset_x in
  let start_y := fadd (fmul (Fin (imag (seg_start sg))) scale_factor) offset_y in
  let end_x := fadd (fmul (fsub (Fin (real (seg_end sg))) min_x) scale_factor) offset_x in
  let end_y := fadd (fmul (Fin (imag (seg_end sg))) scale_factor) offset_y in
  [G0 start_x start_y; M3 power; G1 end_x end_y feed_rate; M5 Bare].

Definition path_to_gcode (p : path) (scale_factor min_x offset_x offset_y : pyfloat)
    (feed_rate power : Z) : list gline :=
  fold_left
    (fun gcode sg => gcode ++ segment_lines scale_factor min_x offset_x offset_y feed_rate power sg)
    p [].

(** Lines 73-77 and 84-92 of [svg_to_gcode]. *)
Definition svg_offsets (scale_factor min_x : pyfloat) (svg_height : Q)
    (center_offset : option (Q * Q)) : result (pyfloat * pyfloat) :=
  let '(center_offset_x, center_offset_y) :=
    match center_offset with
    | Some c => c
    | None => (0%Q, 0%Q)
    end in
  let scaled_width := fmul (fsub (Fin svg_height) min_x) scale_factor in
  let scaled_height := fmul (Fin svg_height) scale_factor in
  try half_width <- fdiv scaled_width (Fin 2);
  try half_height <- fdiv scaled_height (Fin 2);
  let center_x := fadd min_x half_width in
  let center_y := half_height in
  Ok (fsub (Fin center_offset_x) center_x, fsub (Fin center_offset_y) center_y).

Section Svg.

(** The builtin [float] on a string: [None] when it raises [ValueError]. *)
Variable py_float : string -> option Q.

(** Lines 10-17.  Unpacking into four targets raises [ValueError] unless
    there are exactly four items, as does [float] on a bad token; the
    [height] branch reads the unbound name [s_attr]. *)
Definition svg_height_of (svg_attributes : gmap string string) : result Q :=
  match svg_attributes !! "viewBox" with
  | Some view_box =>
      match map py_float (py_split view_box) with
      | [Some _; Some _; Some _; Some svg_height] => Ok svg_height
      | _ => Raise ValueError
      end
  | None =>
      match svg_attributes !! "height" with
      | Some _ => Raise NameError
      | None => Raise ValueError
      end
  end.

(** Returns the updated [paths] together with the tuple of line 44. *)
Definition calculate_scaling_factor_and_transform (paths : list path)
    (svg_attributes : gmap string string) (target_longest_side : option Q)
    : result (list path * (pyfloat * pyfloat * Q)) :=
  try svg_height <- svg_height_of svg_attributes;
  let b := scan_paths paths in
  let paths := flip_paths svg_height paths in
  let current_longest_side := longest_side_of b in
  try scale_factor <-
    match target_longest_side with
    | None => Ok (Fin 1)
    | Some t => fdiv (Fin t) current_longest_side
    end;
  Ok (paths, (scale_factor, min_x b, svg_height)).

(** [svg2paths2] has already produced [paths] and [svg_attributes]. *)
Definition svg_to_gcode (paths : list path) (svg_attributes : gmap string string)
    (power feed_rate : Z) (longest_side : option Q) (center_offset : option (Q * Q))
    : result (list gline) :=
  try (paths, (scale_factor, min_x, svg_height)) <-
    calculate_scaling_factor_and_transform paths svg_attributes longest_side;
  try (offset_x, offset_y) <- svg_offsets scale_factor min_x svg_height center_offset;
  let out := [G21; G90; M5 StartOff] in
  let out :=
    fold_left
      (fun out p => out ++ path_to_gcode p scale_factor min_x offset_x offset_y feed_rate power)
      paths out in
  Ok (out ++ [G0_X0_Y0]).

End Svg.

(** ** A reading of [float] for the worked examples *)

(** Plain decimal literals ([12], [-3.5], [.25]); on these it agrees with the
    builtin [float], every other string is rejected. *)
Definition digit_of (c : ascii) : option Z :=
  let n := nat_of_ascii c in
  if ((48 <=? n) && (n <=? 57))%nat then Some (Z.of_nat (n - 48)) else None.

Fixpoint decimal_from (s : string) (m : Z) (d : positive) (dot any : bool) : option Q :=
  match s with
  | EmptyString => if any then Some (m # d) else None
  | String c s' =>
      if Ascii.eqb c "."%char
      then if dot then None else decimal_from s' m d true any
      else match digit_of c with
           | Some k => decimal_from s' (10 * m + k) (if dot then (10 * d)%positive else d) dot true
           | None => None
           end
  end.

Definition float_of_decimal (s : string) : option Q :=
  match s with
  | String "-"%char s' => option_map Qopp (decimal_from s' 0 1 false false)
  | _ => decimal_from s 0 1 false false
  end.

(** ** The vocabulary of the specification *)

Inductive instruction : Set :=
| RapidMove (x y : pyfloat)
| LinearMove (x y : pyfloat) (feed_rate : Z)
| LaserOn (power : Z)
| LaserOff
| SetUnits
| SetAbsolutePositioning.

(** The instruction a written line stands for. *)
Definition instruction_of (l : gline) : instruction :=
  match l with
  | G21 => SetUnits
  | G90 => SetAbsolutePositioning
  | M5 _ => LaserOff
  | G0 x y => RapidMove x y
  | M3 p => LaserOn p
  | G1 x y f => LinearMove x y f
  | G0_X0_Y0 => RapidMove (Fin 0) (Fin 0)
  end.

Definition setup : list instruction := [SetUnits; SetAbsolutePositioning; LaserOff].

(** The emitter as the specification words it: per curve a rapid move to the
    transformed first point, laser on, a linear move per subsequent point,
    laser off; after all curves one rapid move to the origin. *)
Definition emit_curve {P : Type} (transform : P -> pyfloat * pyfloat) (power feed_rate : Z)
    (curve : list P) : list instruction :=
  match curve with
  | [] => []
  | p :: ps =>
      RapidMove (fst (transform p)) (snd (transform p))
        :: LaserOn power
        :: map (fun q => LinearMove (fst (transform q)) (snd (transform q)) feed_rate) ps
        ++ [LaserOff]
  end.

Definition emit {P : Type} (transform : P -> pyfloat * pyfloat) (power feed_rate : Z)
    (scene : list (list P)) : list instruction :=
  flat_map (emit_curve transform power feed_rate) scene ++ [RapidMove (Fin 0) (Fin 0)].

Definition is_laser_off (i : instruction) : bool :=
  match i with LaserOff => true | _ => false end.

(** The transform each converter applies to a point before writing it. *)
Definition raster_point (scale_factor offset_x offset_y : Q) (p : Z * Z) : pyfloat * pyfloat :=
  (Fin (inject_Z (fst p) * scale_factor + offset_x), Fin (inject_Z (snd p) * scale_factor + offset_y)).

Definition svg_point (scale_factor min_x offset_x offset_y : pyfloat) (c : complex)
    : pyfloat * pyfloat :=
  (fadd (fmul (fsub (Fin (real c)) min_x) scale_factor) offset_x,
   fadd (fmul (Fin (imag c)) scale_factor) offset_y).

(** What one pass of the contour loop writes, in closed form. *)
Definition g1_of (feed_rate : Z) (scale_factor offset_x offset_y : Q) (p : Z * Z) : gline :=
  G1 (fst (raster_point scale_factor offset_x offset_y p))
     (snd (raster_point scale_factor offset_x offset_y p)) feed_rate.

Definition contour_lines (power feed_rate : Z) (scale_factor offset_x offset_y : Q)
    (c : contour) : list gline :=
  match c with
  | [] => [M5 TurnOff]
  | p :: ps =>
      G0 (fst (raster_point scale_factor offset_x offset_y p))
         (snd (raster_point scale_factor offset_x offset_y p))
        :: M3 power
        :: map (g1_of feed_rate scale_factor offset_x offset_y) ps ++ [M5 TurnOff]
  end.

(** The points the written lines move to (the closing [G0 X0 Y0] is not part
    of the artwork), and their bounding box. *)
Definition points_of (ls : list gline) : list (pyfloat * pyfloat) :=
  flat_map (fun l => match l with G0 x y | G1 x y _ => [(x, y)] | _ => [] end) ls.

Definition bbox_of_points (pts : list (pyfloat * pyfloat)) : bbox :=
  fold_left
    (fun b p => BBox (py_min2 (min_x b) (fst p)) (py_min2 (min_y b) (snd p))
                     (py_max2 (max_x b) (fst p)) (py_max2 (max_y b) (snd p)))
    pts bbox_init.


(** A contour point as it comes from the image, before any transform. *)
Definition pixel_point (p : Z * Z) : pyfloat * pyfloat :=
  (Fin (inject_Z (fst p)), Fin (inject_Z (snd p))).

Definition contour_points (contours : list contour) : list (pyfloat * pyfloat) :=
  flat_map (map pixel_point) contours.

(** A line carries the caller's power and feed rate unchanged. *)
Definition carries (power feed_rate : Z) (l : gline) : Prop :=
  match l with
  | M3 p => p = power
  | G1 _ _ f => f = feed_rate
  | _ => True
  end.

Definition default_placement (center_offset : option (Q * Q)) : Q * Q :=
  match center_offset with
  | Some c => c
  | None => (0%Q, 0%Q)
  end.

(** Running minimum and maximum of a list of finite values, as the scanning
    loops compute them from their infinite initial values. *)
Definition lo (acc : pyfloat) (l : list Q) : pyfloat :=
  fold_left (fun a x => py_min2 a (Fin x)) l acc.

Definition hi (acc : pyfloat) (l : list Q) : pyfloat :=
  fold_left (fun a x => py_max2 a (Fin x)) l acc.

(** [m] is a least (greatest) element of [l]. *)
Definition lower (m : Q) (l : list Q) : Prop :=
  (exists x, In x l /\ (x == m)%Q) /\ forall x, In x l -> (m <= x)%Q.

Definition upper (m : Q) (l : list Q) : Prop :=
  (exists x, In x l /\ (x == m)%Q) /\ forall x, In x l -> (x <= m)%Q.

Definition lift_point (p : Q * Q) : pyfloat * pyfloat := (Fin (fst p), Fin (snd p)).

(** End points of a list of segments as pairs of rationals. *)
Definition seg_xy (sgs : list segment) : list (Q * Q) :=
  flat_map (fun sg => [(real (seg_start sg), imag (seg_start sg));
                       (real (seg_end sg), imag (seg_end sg))]) sgs.

(** Shapes of text: a string that is one line (its only line feed is its
    last character), and a number written with exactly three decimals. *)
Definition is_newline (c : ascii) : bool := Ascii.eqb c (ascii_of_nat 10).

Fixpoint no_newline (s : string) : bool :=
  match s with
  | EmptyString => true
  | String c s' => negb (is_newline c) && no_newline s'
  end.

Fixpoint single_line (s : string) : bool :=
  match s with
  | EmptyString => false
  | String c s' =>
      if is_newline c then match s' with EmptyString => true | _ => false end
      else single_line s'
  end.

Definition is_digit (c : ascii) : bool :=
  let n := nat_of_ascii c in ((48 <=? n) && (n <=? 57))%nat.

Fixpoint all_digits (s : string) : bool :=
  match s with
  | EmptyString => true
  | String c s' => is_digit c && all_digits s'
  end.

Definition fixed3 (s : string) : Prop :=
  exists sign ip a b c,
    s = sign +:+ ip +:+ "." +:+ String a (String b (String c ""))
    /\ (sign = "" \/ sign = "-")
    /\ ip <> ""
    /\ all_digits ip = true
    /\ is_digit a = true /\ is_digit b = true /\ is_digit c = true.

(** The laser as a written program drives it: [M3] switches it on, [M5]
    off; a rapid move is acceptable only while it is off, a cutting move
    only while it is on.  [laser_run on ls] is the state after [ls] started
    in state [on], or [None] when some move is made in the wrong state. *)
Fixpoint laser_run (on : bool) (ls : list gline) : option bool :=
  match ls with
  | [] => Some on
  | l :: ls' =>
      match l with
      | M3 _ => laser_run true ls'
      | M5 _ => laser_run false ls'
      | G0 _ _ | G0_X0_Y0 => if on then None else laser_run on ls'
      | G1 _ _ _ => if on then laser_run on ls' else None
      | G21 | G90 => laser_run on ls'
      end
  end.

(** Whatever the state of the machine before the program, every move is
    made in the right state and the laser is off at the end. *)
Definition laser_safe (ls : list gline) : bool :=
  match laser_run false ls, laser_run true ls with
  | Some false, Some false => true
  | _, _ => false
  end.

(** Number of line feeds of a text. *)
Fixpoint count_newlines (s : string) : nat :=
  match s with
  | EmptyString => 0
  | String c s' => (if is_newline c then 1 else 0) + count_newlines s'
  end.

(** Lines one contour contributes: a rapid move, laser on, one move per
    further point and laser off; only the laser-off for a contour without
    points. *)
Definition contour_line_count (c : contour) : nat :=
  match c with
  | [] => 1
  | _ :: ps => 3 + length ps
  end.

(** The number a string of decimal digits denotes, the digits read from
    the left onto [acc]. *)
Fixpoint uint_value (u : Decimal.uint) (acc : Z) : Z :=
  match u with
  | Decimal.Nil => acc
  | Decimal.D0 l => uint_value l (10 * acc + 0)
  | Decimal.D1 l => uint_value l (10 * acc + 1)
  | Decimal.D2 l => uint_value l (10 * acc + 2)
  | Decimal.D3 l => uint_value l (10 * acc + 3)
  | Decimal.D4 l => uint_value l (10 * acc + 4)
  | Decimal.D5 l => uint_value l (10 * acc + 5)
  | Decimal.D6 l => uint_value l (10 * acc + 6)
  | Decimal.D7 l => uint_value l (10 * acc + 7)
  | Decimal.D8 l => uint_value l (10 * acc + 8)
  | Decimal.D9 l => uint_value l (10 * acc + 9)
  end.

(** A path read as one curve of the scene: the start of its first segment
    followed by the end of every segment. *)
Definition polyline_of_path (p : path) : list complex :=
  match p with
  | [] => []
  | sg :: _ => seg_start sg :: map seg_end p
  end.

(** What the vector converter writes for one segment, as instructions. *)
Definition segment_block (transform : complex -> pyfloat * pyfloat) (power feed_rate : Z)
    (sg : segment) : list instruction :=
  [RapidMove (fst (transform (seg_start sg))) (snd (transform (seg_start sg)));
   LaserOn power;
   LinearMove (fst (transform (seg_end sg))) (snd (transform (seg_end sg))) feed_rate;
   LaserOff].

(** A stand-in for contour extraction in the worked examples: every pixel
    that is not zero becomes a contour of one point, [(column, row)]. *)
Definition indexed {A : Type} (l : list A) : list (Z * A) :=
  combine (map Z.of_nat (seq 0 (length l))) l.

Definition bright_pixels (binary : bitmap) : list contour :=
  flat_map
    (fun yr =>
       flat_map (fun xv => if snd xv =? 0 then [] else [[(fst xv, fst yr)]])
         (indexed (snd yr)))
    (indexed binary).

(** The range of a signed 32-bit integer, the type of pixel coordinates. *)
Definition fits_int32 (v : Z) : Prop := - 2 ^ 31 <= v < 2 ^ 31.

(** * Properties *)

Example format_examples :
  map format_3f [Fin 0; Fin (20 # 1); Fin (-(1 # 3)); Fin (5 # 10000); Fin (15 # 10000);
                 Fin (12345 # 10); Fin (-(1 # 10000)); PInf]
  = ["0.000"; "20.000"; "-0.333"; "0.000"; "0.002"; "1234.500"; "-0.000"; "inf"].
Proof. reflexivity. Qed.

Example float_order_examples :
  map (fun p => flt (fst p) (snd p))
    [(Fin 1, PInf); (PInf, Fin 1); (NInf, Fin 1); (Fin 1, NInf); (NInf, PInf); (PInf, NInf);
     (PInf, PInf); (NInf, NInf); (NaN, Fin 1); (Fin 1, NaN); (Fin 1, Fin 2); (Fin 2, Fin 1)]
  = [true; false; true; false; true; false; false; false; false; false; true; false].
Proof. reflexivity. Qed.

Example float_arith_examples :
  (fsub NInf PInf, fsub PInf PInf, fmul NInf (Fin 0), fmul NInf (Fin (-2)),
   fdiv (Fin 20) NInf, fdiv (Fin 20) (Fin 0), fdiv PInf (Fin 0), fdiv (Fin 20) (Fin 10))
  = (NInf, NaN, NaN, PInf,
     Ok (Fin 0), Raise ZeroDivisionError, Raise ZeroDivisionError, Ok (Fin (20 / 10))).
Proof. reflexivity. Qed.

Example split_example :
  py_split "  0 0  10.5 -3 " = ["0"; "0"; "10.5"; "-3"]
  /\ map float_of_decimal ["0"; "10.5"; "-3"; "1e3"; "."]
     = [Some 0%Q; Some (105 # 10); Some (-3 # 1)%Q; None; None].
Proof. split; reflexivity. Qed.

Example svg_program_example :
  match svg_to_gcode float_of_decimal
          [[Line (Complex 0 0) (Complex 10 0); CubicBezier (Complex 10 0) (Complex 12 3)
              (Complex 12 7) (Complex 10 10)]]
          {[ "viewBox" := "0 0 10 10" ]} 800 500 (Some 20%Q) None with
  | Ok lines => file_text lines
  | Raise _ => ""
  end
  = "G21 ; Set units to millimeters" +:+ newline
    +:+ "G90 ; Absolute positioning" +:+ newline
    +:+ "M5 ; Start with laser off" +:+ newline
    +:+ "G0 X-10.000 Y10.000" +:+ newline
    +:+ "M3 S800" +:+ newline
    +:+ "G1 X10.000 Y10.000 F500" +:+ newline
    +:+ "M5" +:+ newline
    +:+ "G0 X10.000 Y10.000" +:+ newline
    +:+ "M3 S800" +:+ newline
    +:+ "G1 X10.000 Y-10.000 F500" +:+ newline
    +:+ "M5" +:+ newline
    +:+ "G0 X0 Y0" +:+ newline.
Proof. vm_compute. reflexivity. Qed.

(** ** Loops that append *)

Lemma fold_left_append {A B : Type} (f : A -> list B) (l : list A) (acc : list B) :
  fold_left (fun out a => out ++ f a) l acc = acc ++ flat_map f l.
Proof.
  revert acc; induction l as [|a l IH]; intros acc; simpl.
  - now rewrite app_nil_r.
  - rewrite IH. now rewrite <- app_assoc.
Qed.

Section RasterEmission.

Variables (power feed_rate : Z) (scale_factor offset_x offset_y : Q).

Let step := point_step power feed_rate scale_factor offset_x offset_y.
Let tf := raster_point scale_factor offset_x offset_y.
Let g1 := g1_of feed_rate scale_factor offset_x offset_y.
Let lines := contour_lines power feed_rate scale_factor offset_x offset_y.

Lemma point_loop_tail (c : contour) (i : nat) (out : list gline) :
  fold_left step c (S i, out) = (S (length c + i), out ++ map g1 c).
Proof.
  revert i out; induction c as [|[x y] c IH]; intros i out.
  - simpl. now rewrite app_nil_r.
  - change (fold_left step ((x, y) :: c) (S i, out))
      with (fold_left step c (S (S i), out ++ [g1 (x, y)])).
    rewrite IH, <- app_assoc. simpl. do 2 f_equal. lia.
Qed.

Lemma point_loop_head (p : Z * Z) (c : contour) (out : list gline) :
  snd (fold_left step (p :: c) (0%nat, out))
  = out ++ G0 (fst (tf p)) (snd (tf p)) :: M3 power :: map g1 c.
Proof.
  destruct p as [x y].
  change (fold_left step ((x, y) :: c) (0%nat, out))
    with (fold_left step c (1%nat, out ++ [G0 (fst (tf (x, y))) (snd (tf (x, y))); M3 power])).
  rewrite point_loop_tail, <- app_assoc. reflexivity.
Qed.

Lemma contour_step_lines (out : list gline) (c : contour) :
  contour_step power feed_rate scale_factor offset_x offset_y out c = out ++ lines c.
Proof.
  unfold contour_step. destruct c as [|p ps].
  - reflexivity.
  - fold step. rewrite point_loop_head, <- app_assoc. reflexivity.
Qed.

Lemma generate_gcode_lines (contours : list contour) :
  generate_gcode contours power feed_rate scale_factor offset_x offset_y
  = [G21; G90; M5 EnsureOff] ++ flat_map lines contours ++ [G0_X0_Y0].
Proof.
  unfold generate_gcode.
  assert (E : forall l acc,
             fold_left (contour_step power feed_rate scale_factor offset_x offset_y) l acc
             = acc ++ flat_map lines l).
  { induction l as [|c l IH]; intros acc; simpl.
    - now rewrite app_nil_r.
    - rewrite IH, contour_step_lines. now rewrite <- app_assoc. }
  rewrite E. now rewrite <- app_assoc.
Qed.

Lemma contour_lines_emit (c : contour) :
  c <> [] -> map instruction_of (lines c) = emit_curve tf power feed_rate c.
Proof.
  destruct c as [|p ps]; [congruence|]. intros _. simpl.
  rewrite map_app, map_map. reflexivity.
Qed.

Lemma contours_emit (cs : list contour) :
  Forall (fun c => c <> []) cs ->
  map instruction_of (flat_map lines cs) = flat_map (emit_curve tf power feed_rate) cs.
Proof.
  induction 1 as [|c cs Hc NE IH]; simpl; [reflexivity|].
  rewrite map_app, IH. f_equal. now apply contour_lines_emit.
Qed.

End RasterEmission.

Section SvgEmission.

Variables (scale_factor mx offset_x offset_y : pyfloat) (feed_rate power : Z).

Let tf := svg_point scale_factor mx offset_x offset_y.

Lemma segment_lines_eq (sg : segment) :
  segment_lines scale_factor mx offset_x offset_y feed_rate power sg
  = [G0 (fst (tf (seg_start sg))) (snd (tf (seg_start sg))); M3 power;
     G1 (fst (tf (seg_end sg))) (snd (tf (seg_end sg))) feed_rate; M5 Bare].
Proof. reflexivity. Qed.

Lemma path_to_gcode_lines (p : path) :
  path_to_gcode p scale_factor mx offset_x offset_y feed_rate power
  = flat_map (segment_lines scale_factor mx offset_x offset_y feed_rate power) p.
Proof. unfold path_to_gcode. now rewrite fold_left_append. Qed.

Lemma svg_body_lines (paths : list path) (out : list gline) :
  fold_left
    (fun out p => out ++ path_to_gcode p scale_factor mx offset_x offset_y feed_rate power)
    paths out
  = out ++ flat_map (segment_lines scale_factor mx offset_x offset_y feed_rate power)
             (concat paths).
Proof.
  rewrite fold_left_append. f_equal.
  induction paths as [|p paths IH]; simpl; [reflexivity|].
  rewrite flat_map_app, IH, path_to_gcode_lines. reflexivity.
Qed.

End SvgEmission.

(** ** The two programs in closed form *)

Section SvgProgram.

Variable py_float : string -> option Q.

Lemma calculate_unfold (paths : list path) (attrs : gmap string string) (target : option Q)
    (h : Q) :
  svg_height_of py_float attrs = Ok h ->
  calculate_scaling_factor_and_transform py_float paths attrs target
  = try scale_factor <-
      match target with
      | None => Ok (Fin 1)
      | Some t => fdiv (Fin t) (longest_side_of (scan_paths paths))
      end;
    Ok (flip_paths h paths, (scale_factor, min_x (scan_paths paths), h)).
Proof. intros E. unfold calculate_scaling_factor_and_transform. now rewrite E. Qed.

Lemma calculate_inv (paths paths' : list path) (attrs : gmap string string)
    (target : option Q) (s mx : pyfloat) (h : Q) :
  calculate_scaling_factor_and_transform py_float paths attrs target = Ok (paths', (s, mx, h)) ->
  svg_height_of py_float attrs = Ok h
  /\ paths' = flip_paths h paths
  /\ mx = min_x (scan_paths paths)
  /\ match target with
     | None => Ok (Fin 1)
     | Some t => fdiv (Fin t) (longest_side_of (scan_paths paths))
     end = Ok s.
Proof.
  unfold calculate_scaling_factor_and_transform.
  destruct (svg_height_of py_float attrs) as [h0|e]; simpl; [|discriminate].
  destruct (match target with None => _ | Some t => _ end) as [s0|e]; simpl; [|discriminate].
  intros E; injection E as <- <- <- <-. auto.
Qed.

Lemma svg_to_gcode_unfold (paths paths' : list path) (attrs : gmap string string)
    (power feed_rate : Z) (target : option Q) (placement : option (Q * Q))
    (s mx ox oy : pyfloat) (h : Q) :
  calculate_scaling_factor_and_transform py_float paths attrs target = Ok (paths', (s, mx, h)) ->
  svg_offsets s mx h placement = Ok (ox, oy) ->
  svg_to_gcode py_float paths attrs power feed_rate target placement
  = Ok ([G21; G90; M5 StartOff]
          ++ flat_map (segment_lines s mx ox oy feed_rate power) (concat paths')
          ++ [G0_X0_Y0]).
Proof.
  intros E1 E2. unfold svg_to_gcode. rewrite E1. simpl. rewrite E2. simpl.
  rewrite svg_body_lines. simpl. reflexivity.
Qed.

Lemma svg_to_gcode_inv (paths : list path) (attrs : gmap string string)
    (power feed_rate : Z) (target : option Q) (placement : option (Q * Q))
    (lines : list gline) :
  svg_to_gcode py_float paths attrs power feed_rate target placement = Ok lines ->
  exists paths' s mx h ox oy,
    calculate_scaling_factor_and_transform py_float paths attrs target
    = Ok (paths', (s, mx, h))
    /\ svg_offsets s mx h placement = Ok (ox, oy)
    /\ lines = [G21; G90; M5 StartOff]
                 ++ flat_map (segment_lines s mx ox oy feed_rate power) (concat paths')
                 ++ [G0_X0_Y0].
Proof.
  intros E.
  destruct (calculate_scaling_factor_and_transform py_float paths attrs target)
    as [[paths' [[s mx] h]]|e] eqn:E1.
  - destruct (svg_offsets s mx h placement) as [[ox oy]|e] eqn:E2.
    + rewrite (svg_to_gcode_unfold _ _ _ _ _ _ _ _ _ _ _ _ E1 E2) in E.
      injection E as <-. exists paths', s, mx, h, ox, oy. auto.
    + unfold svg_to_gcode in E. rewrite E1 in E. simpl in E. rewrite E2 in E. discriminate.
  - unfold svg_to_gcode in E. rewrite E1 in E. discriminate.
Qed.

End SvgProgram.

(** ** Emission order (C3, C10) *)

Lemma emit_curve_length {P : Type} (tf : P -> pyfloat * pyfloat) (power feed_rate : Z)
    (c : list P) :
  c <> [] -> length (emit_curve tf power feed_rate c) = (length c + 2)%nat.
Proof.
  destruct c as [|p ps]; [congruence|]. intros _. simpl.
  rewrite length_app, length_map. simpl. lia.
Qed.

Lemma emit_curve_laser_off {P : Type} (tf : P -> pyfloat * pyfloat) (power feed_rate : Z)
    (c : list P) :
  c <> [] -> length (filter is_laser_off (emit_curve tf power feed_rate c)) = 1%nat.
Proof.
  destruct c as [|p ps]; [congruence|]. intros _. simpl.
  induction ps as [|q ps IH]; simpl; [reflexivity|exact IH].
Qed.

Lemma emit_counts {P : Type} (tf : P -> pyfloat * pyfloat) (power feed_rate : Z)
    (scene : list (list P)) :
  Forall (fun c => c <> []) scene ->
  length (emit tf power feed_rate scene)
  = (list_sum (map (fun c => 1 + 1 + (length c - 1) + 1) scene) + 1)%nat
  /\ length (filter is_laser_off (emit tf power feed_rate scene)) = length scene.
Proof.
  unfold emit. intros F. rewrite length_app, filter_app, length_app. simpl.
  induction F as [|c scene Hc F IH]; simpl; [split; reflexivity|].
  rewrite length_app, filter_app, length_app.
  rewrite (emit_curve_length _ _ _ _ Hc), (emit_curve_laser_off _ _ _ _ Hc).
  destruct IH as [IH1 IH2].
  assert (length c <> 0%nat) by (destruct c; [congruence|discriminate]).
  split; lia.
Qed.

(** C3 (as the code has it).  Raster converter: after the three setup lines
    it writes exactly what the specified emitter produces with one curve per
    (non-empty) contour: a rapid move to the transformed first point, one
    laser-on, one linear move per further point, one laser-off; so the laser
    is switched off once per contour.  Vector converter: the unit is the
    segment, not the path: for every segment of every path, in order, it
    writes a rapid move to the transformed start, laser-on, one linear move
    to the transformed end and laser-off; so the laser is switched off once
    per segment.  Both end with a single rapid move to the origin. *)
Theorem C3_emission_per_contour_and_per_segment
    (contours : list contour) (power feed_rate : Z) (scale_factor offset_x offset_y : Q)
    (py_float : string -> option Q) (paths : list path) (attrs : gmap string string)
    (target : option Q) (placement : option (Q * Q)) (lines : list gline) :
  Forall (fun c => c <> []) contours ->
  svg_to_gcode py_float paths attrs power feed_rate target placement = Ok lines ->
  let raster := emit (raster_point scale_factor offset_x offset_y) power feed_rate contours in
  (map instruction_of (generate_gcode contours power feed_rate scale_factor offset_x offset_y)
   = setup ++ raster
   /\ length raster
      = (list_sum (map (fun c => 1 + 1 + (length c - 1) + 1) contours) + 1)%nat
   /\ length (filter is_laser_off raster) = length contours)
  /\ exists paths' s mx h ox oy,
      calculate_scaling_factor_and_transform py_float paths attrs target
      = Ok (paths', (s, mx, h))
      /\ svg_offsets s mx h placement = Ok (ox, oy)
      /\ let body :=
           flat_map (segment_block (svg_point s mx ox oy) power feed_rate) (concat paths') in
         map instruction_of lines = setup ++ body ++ [RapidMove (Fin 0) (Fin 0)]
         /\ length (filter is_laser_off body) = list_sum (map (@length segment) paths)
         /\ Forall2 (fun p p' =>
                       length
                         (filter is_laser_off
                            (flat_map (segment_block (svg_point s mx ox oy) power feed_rate) p'))
                       = length p)
              paths paths'.
Proof.
  intros NE E raster. split.
  - split.
    + rewrite generate_gcode_lines. unfold raster, emit.
      rewrite !map_app. simpl. do 3 f_equal.
      now rewrite contours_emit.
    + now apply emit_counts.
  - destruct (svg_to_gcode_inv _ _ _ _ _ _ _ _ E) as (paths' & s & mx & h & ox & oy & E1 & E2 & ->).
    exists paths', s, mx, h, ox, oy. split; [exact E1|]. split; [exact E2|].
    assert (B : forall sgs,
               map instruction_of
                 (flat_map (segment_lines s mx ox oy feed_rate power) sgs)
               = flat_map (segment_block (svg_point s mx ox oy) power feed_rate) sgs).
    { induction sgs as [|sg sgs IH]; simpl; [reflexivity|]. now rewrite <- IH. }
    assert (L : forall sgs,
               length (filter is_laser_off
                         (flat_map (segment_block (svg_point s mx ox oy) power feed_rate) sgs))
               = length sgs).
    { induction sgs as [|sg sgs IH]; simpl; [reflexivity|]. now rewrite IH. }
    apply calculate_inv in E1. destruct E1 as (_ & -> & _ & _).
    split; [|split].
    + rewrite !map_app, B. reflexivity.
    + rewrite L. unfold flip_paths. clear.
      induction paths as [|p ps IH]; simpl; [reflexivity|].
      now rewrite length_app, length_map, IH.
    + unfold flip_paths. clear E E2. induction paths as [|p ps IH]; simpl; constructor; trivial.
      now rewrite L, length_map.
Qed.

(** C10.  Whatever the class of a segment, [path_to_gcode] writes for it a
    rapid move to its transformed start, laser on, one straight linear move
    to its transformed end, laser off; control points, radii and flags do
    not enter, so a curve or an arc is cut as the chord between its ends. *)
Theorem C10_one_chord_per_segment
    (p : path) (scale_factor mx offset_x offset_y : pyfloat) (feed_rate power : Z) :
  let tf := svg_point scale_factor mx offset_x offset_y in
  path_to_gcode p scale_factor mx offset_x offset_y feed_rate power
  = flat_map
      (fun sg => [G0 (fst (tf (seg_start sg))) (snd (tf (seg_start sg)));
                  M3 power;
                  G1 (fst (tf (seg_end sg))) (snd (tf (seg_end sg))) feed_rate;
                  M5 Bare]) p
  /\ forall sg : segment,
      path_to_gcode [sg] scale_factor mx offset_x offset_y feed_rate power
      = path_to_gcode [Line (seg_start sg) (seg_end sg)]
          scale_factor mx offset_x offset_y feed_rate power.
Proof.
  intros tf. split.
  - rewrite path_to_gcode_lines. reflexivity.
  - intros sg. rewrite !path_to_gcode_lines. reflexivity.
Qed.

(** ** Parameter handling (C7) *)

Lemma carries_generate_gcode (contours : list contour) (power feed_rate : Z)
    (scale_factor offset_x offset_y : Q) :
  Forall (carries power feed_rate)
    (generate_gcode contours power feed_rate scale_factor offset_x offset_y).
Proof.
  rewrite generate_gcode_lines. simpl.
  repeat (constructor; [exact I|]).
  apply Forall_app; split; [|repeat constructor].
  apply Forall_flat_map, Forall_forall. intros c _.
  destruct c as [|pt ps]; simpl; [repeat constructor|].
  repeat (constructor; [first [exact I | reflexivity]|]).
  apply Forall_app; split; [|repeat constructor].
  apply Forall_map, Forall_forall. intros; reflexivity.
Qed.

Lemma carries_segments (s mx ox oy : pyfloat) (feed_rate power : Z) (sgs : list segment) :
  Forall (carries power feed_rate) (flat_map (segment_lines s mx ox oy feed_rate power) sgs).
Proof.
  apply Forall_flat_map, Forall_forall. intros sg _.
  unfold segment_lines. repeat (constructor; [first [exact I | reflexivity]|]).
  constructor.
Qed.

(** C7 (as the code has it).  Neither converter inspects [power] or
    [feed_rate]: whether a conversion succeeds does not depend on them, and
    when it succeeds every [M3] line carries the given power and every [G1]
    line the given feed rate, whatever their sign. *)
Theorem C7_parameters_not_validated
    (contours : list contour) (scale_factor offset_x offset_y : Q)
    (py_float : string -> option Q) (paths : list path) (attrs : gmap string string)
    (target : option Q) (placement : option (Q * Q))
    (power feed_rate power' feed_rate' : Z) :
  Forall (carries power feed_rate)
    (generate_gcode contours power feed_rate scale_factor offset_x offset_y)
  /\ is_ok (svg_to_gcode py_float paths attrs power feed_rate target placement)
     = is_ok (svg_to_gcode py_float paths attrs power' feed_rate' target placement)
  /\ match svg_to_gcode py_float paths attrs power feed_rate target placement with
     | Ok lines => Forall (carries power feed_rate) lines
     | Raise _ => True
     end.
Proof.
  split; [apply carries_generate_gcode|].
  destruct (calculate_scaling_factor_and_transform py_float paths attrs target)
    as [[paths' [[s mx] h]]|e] eqn:E1.
  - destruct (svg_offsets s mx h placement) as [[ox oy]|e] eqn:E2.
    + rewrite !(svg_to_gcode_unfold _ _ _ _ _ _ _ _ _ _ _ _ _ E1 E2). split; [reflexivity|].
      simpl. repeat (constructor; [exact I|]).
      apply Forall_app; split; [apply carries_segments|repeat constructor].
    + unfold svg_to_gcode. rewrite E1. simpl. rewrite E2. simpl. auto.
  - unfold svg_to_gcode. rewrite E1. simpl. auto.
Qed.

(** C7, as stated, fails: with power 0 and feed rate -5 both converters
    produce a program. *)
Lemma C7_nonpositive_parameters_accepted :
  file_text (generate_gcode [[(0, 0); (1, 0)]] 0 (-5) 1 0 0)
  = "G21 ; Set units to millimeters" +:+ newline
    +:+ "G90 ; Absolute positioning" +:+ newline
    +:+ "M5 ; Ensure the laser is off to start" +:+ newline
    +:+ "G0 X0.000 Y0.000" +:+ newline
    +:+ "M3 S0" +:+ newline
    +:+ "G1 X1.000 Y0.000 F-5" +:+ newline
    +:+ "M5 ; Turn off the laser" +:+ newline
    +:+ "G0 X0 Y0" +:+ newline
  /\ is_ok (svg_to_gcode float_of_decimal [[Line (Complex 0 0) (Complex 1 0)]]
              {[ "viewBox" := "0 0 10 10" ]} 0 (-5) None None) = true.
Proof. split; vm_compute; reflexivity. Qed.

(** ** The flip (C4, C9) *)

Lemma flip_line_start (h : Q) (sg : segment) :
  seg_start (flip_line h sg) = Complex (real (seg_start sg)) (h - imag (seg_start sg)).
Proof. destruct sg; reflexivity. Qed.

Lemma flip_line_end (h : Q) (sg : segment) :
  seg_end (flip_line h sg) = Complex (real (seg_end sg)) (h - imag (seg_end sg)).
Proof. destruct sg; reflexivity. Qed.

Lemma cv2_flip0_row (binary : bitmap) (y : nat) :
  (y < length binary)%nat ->
  nth_error (cv2_flip0 binary) (length binary - 1 - y) = nth_error binary y.
Proof.
  intros Hy. unfold cv2_flip0.
  rewrite nth_error_rev.
  destruct (Nat.ltb_spec (length binary - 1 - y) (length binary)) as [_|?]; [|lia].
  f_equal. lia.
Qed.

(** C4 (as the code has it).  Vector converter: the flip replaces the Y of
    both end points of every segment by [svg_height - y] and leaves X alone;
    scale and offset are applied to the flipped end points, which are what
    the program writes; flipping twice restores every Y.  Raster converter:
    the flip is applied to the thresholded image, and the contours that are
    scaled, offset and written are extracted from the flipped image; it
    moves pixel row [y] to row [rows - 1 - y], and flipping twice restores
    the image. *)
Theorem C4_flip
    (py_float : string -> option Q) (paths : list path) (attrs : gmap string string)
    (target : option Q) (placement : option (Q * Q)) (lines : list gline)
    (image : Type) (shape : image -> list Z) (drop_alpha : image -> image)
    (threshold_image : image -> option Q -> bitmap) (GaussianBlur : bitmap -> Q -> bitmap)
    (findContours : bitmap -> list contour)
    (img img' : image) (threshold : option Q) (contours : list contour)
    (power feed_rate : Z) (longest_side : option Q) (center_offset : option (Q * Q))
    (scale_factor offset_x offset_y : Q) (y : nat) :
  svg_to_gcode py_float paths attrs power feed_rate target placement = Ok lines ->
  image_contours image shape drop_alpha threshold_image GaussianBlur findContours img threshold
  = Ok (img', contours) ->
  raster_transform (shape img') longest_side center_offset
  = Ok (scale_factor, offset_x, offset_y) ->
  (y < length (threshold_image img' threshold))%nat ->
  (exists s mx h ox oy,
      calculate_scaling_factor_and_transform py_float paths attrs target
      = Ok (map (map (flip_line h)) paths, (s, mx, h))
      /\ svg_offsets s mx h placement = Ok (ox, oy)
      /\ lines
         = [G21; G90; M5 StartOff]
             ++ flat_map
                  (fun sg =>
                     let a := Complex (real (seg_start sg)) (h - imag (seg_start sg)) in
                     let b := Complex (real (seg_end sg)) (h - imag (seg_end sg)) in
                     [G0 (fst (svg_point s mx ox oy a)) (snd (svg_point s mx ox oy a));
                      M3 power;
                      G1 (fst (svg_point s mx ox oy b)) (snd (svg_point s mx ox oy b)) feed_rate;
                      M5 Bare])
                  (concat paths)
             ++ [G0_X0_Y0]
      /\ forall sg : segment,
          real (seg_start (flip_line h sg)) = real (seg_start sg)
          /\ imag (seg_start (flip_line h sg)) = (h - imag (seg_start sg))%Q
          /\ real (seg_end (flip_line h sg)) = real (seg_end sg)
          /\ imag (seg_end (flip_line h sg)) = (h - imag (seg_end sg))%Q
          /\ (imag (seg_start (flip_line h (flip_line h sg))) == imag (seg_start sg))%Q
          /\ (imag (seg_end (flip_line h (flip_line h sg))) == imag (seg_end sg))%Q)
  /\ exists m,
      let binary := threshold_image img' threshold in
      py_max_shape (shape img') = Ok m
      /\ contours
         = findContours (GaussianBlur (cv2_flip0 binary) (inject_Z m * (5 # 10000))%Q)
      /\ image_to_gcode image shape drop_alpha threshold_image GaussianBlur findContours
           (Some img) threshold power feed_rate longest_side center_offset
         = Ok (generate_gcode
                 (findContours (GaussianBlur (cv2_flip0 binary) (inject_Z m * (5 # 10000))%Q))
                 power feed_rate scale_factor offset_x offset_y)
      /\ nth_error (cv2_flip0 binary) (length binary - 1 - y) = nth_error binary y
      /\ cv2_flip0 (cv2_flip0 binary) = binary.
Proof.
  intros E Ec Et Hy. split.
  - destruct (svg_to_gcode_inv _ _ _ _ _ _ _ _ E)
      as (paths' & s & mx & h & ox & oy & E1 & E2 & ->).
    pose proof E1 as E1'. apply calculate_inv in E1'. destruct E1' as (_ & -> & _ & _).
    exists s, mx, h, ox, oy. split; [exact E1|]. split; [exact E2|]. split.
    + do 2 f_equal. unfold flip_paths. rewrite <- concat_map.
      generalize (concat paths). intros sgs.
      induction sgs as [|sg sgs IH]; [reflexivity|].
      cbn [flat_map map]. rewrite IH. unfold segment_lines.
      now rewrite flip_line_start, flip_line_end.
    + intros sg. rewrite !flip_line_start, !flip_line_end. simpl.
      repeat split; trivial; ring.
  - assert (I : image_to_gcode image shape drop_alpha threshold_image GaussianBlur findContours
                  (Some img) threshold power feed_rate longest_side center_offset
                = Ok (generate_gcode contours power feed_rate scale_factor offset_x offset_y)).
    { unfold image_to_gcode. rewrite Ec. simpl. rewrite Et. reflexivity. }
    unfold image_contours in Ec.
    destruct (py_last_dim (shape img)) as [d|e]; simpl in Ec; [|discriminate].
    destruct (py_max_shape (shape (if d =? 4 then drop_alpha img else img))) as [m|e] eqn:Em;
      simpl in Ec; [|discriminate].
    injection Ec as <- <-. exists m. simpl.
    split; [exact Em|]. split; [reflexivity|]. split; [exact I|].
    split; [now apply cv2_flip0_row|apply rev_involutive].
Qed.

(** C4 at a concrete input: two segments in a 10 by 10 document, and an
    image of two rows whose upper row is bright. *)
Lemma C4_witness :
  let paths := [[Line (Complex 0 0) (Complex 10 4); Line (Complex 10 4) (Complex 2 2)]] in
  let attrs : gmap string string := {[ "viewBox" := "0 0 10 10" ]} in
  let image_contours' :=
    image_contours (list Z * bitmap) fst (fun i => i) (fun i _ => snd i) (fun b _ => b)
      bright_pixels in
  exists lines,
    svg_to_gcode float_of_decimal paths attrs 800 500 None None = Ok lines
    /\ image_contours' ([2; 1; 3], [[255]; [0]]) None = Ok (([2; 1; 3], [[255]; [0]]), [[(0, 1)]])
    /\ [[(0, 1)]] = bright_pixels (cv2_flip0 [[255]; [0]]).
Proof.
  intros paths attrs image_contours'. eexists.
  split; [vm_compute; reflexivity|]. split; [vm_compute; reflexivity|].
  destruct (C4_flip float_of_decimal paths attrs None None _
              (list Z * bitmap) fst (fun i => i) (fun i _ => snd i) (fun b _ => b)
              bright_pixels ([2; 1; 3], [[255]; [0]]) ([2; 1; 3], [[255]; [0]]) None
              [[(0, 1)]] 800 500 None None 1%Q 0%Q 0%Q 0%nat
              ltac:(vm_compute; reflexivity) ltac:(vm_compute; reflexivity)
              ltac:(reflexivity) ltac:(simpl; lia))
    as [_ (m & _ & C & _)].
  exact C.
Defined.

(** C4, as stated, fails for the raster converter: in an image of two rows
    the pixels of row 0 are not found at row [2 - 0] after the flip, but at
    row [2 - 1 - 0]; a bright pixel at (0, 0) comes out of the converter's
    contour extraction as the point (0, 1), not (0, 2). *)
Lemma C4_raster_flip_off_by_one :
  let binary : bitmap := [[255]; [0]] in
  let image_contours' :=
    image_contours (list Z * bitmap) fst (fun i => i) (fun i _ => snd i) (fun b _ => b)
      bright_pixels in
  nth_error binary 0 = Some [255]
  /\ nth_error (cv2_flip0 binary) (length binary - 0) <> nth_error binary 0
  /\ nth_error (cv2_flip0 binary) (length binary - 1 - 0) = nth_error binary 0
  /\ bright_pixels binary = [[(0, 0)]]
  /\ image_contours' ([2; 1; 3], binary) None
     = Ok (([2; 1; 3], binary), [[(0, Z.of_nat (length binary) - 1 - 0)]])
  /\ image_contours' ([2; 1; 3], binary) None
     <> Ok (([2; 1; 3], binary), [[(0, Z.of_nat (length binary) - 0)]]).
Proof.
  intros binary image_contours'.
  repeat split; try (simpl; congruence); try (vm_compute; reflexivity).
  vm_compute. intros H; discriminate H.
Qed.

(** C9 (as the code has it).  The vector converter's scale computation
    returns with every segment of the caller's paths flipped in place: X
    kept, Y replaced by [svg_height - y]; the offset computation changes
    nothing.  The raster converter's scale and offset computation leaves the
    contours alone: the emitter receives them as extracted. *)
Theorem C9_normalize_mutation
    (py_float : string -> option Q) (paths paths' : list path) (attrs : gmap string string)
    (target : option Q) (s mx : pyfloat) (h : Q)
    (image : Type) (shape : image -> list Z) (drop_alpha : image -> image)
    (threshold_image : image -> option Q -> bitmap) (GaussianBlur : bitmap -> Q -> bitmap)
    (findContours : bitmap -> list contour)
    (img img' : image) (threshold : option Q) (contours : list contour)
    (power feed_rate : Z) (longest_side : option Q) (center_offset : option (Q * Q))
    (scale_factor offset_x offset_y : Q) :
  calculate_scaling_factor_and_transform py_float paths attrs target = Ok (paths', (s, mx, h)) ->
  image_contours image shape drop_alpha threshold_image GaussianBlur findContours img threshold
  = Ok (img', contours) ->
  raster_transform (shape img') longest_side center_offset
  = Ok (scale_factor, offset_x, offset_y) ->
  (length paths' = length paths
   /\ Forall2
        (Forall2
           (fun sg sg' =>
              seg_start sg' = Complex (real (seg_start sg)) (h - imag (seg_start sg))
              /\ seg_end sg' = Complex (real (seg_end sg)) (h - imag (seg_end sg))))
        paths paths')
  /\ image_to_gcode image shape drop_alpha threshold_image GaussianBlur findContours
       (Some img) threshold power feed_rate longest_side center_offset
     = Ok (generate_gcode contours power feed_rate scale_factor offset_x offset_y).
Proof.
  intros E Ec Et. apply calculate_inv in E. destruct E as (_ & -> & _ & _).
  split; [split|].
  - unfold flip_paths. now rewrite length_map.
  - unfold flip_paths. induction paths as [|p ps IH]; simpl; constructor; trivial.
    clear IH. induction p as [|sg p IH]; simpl; constructor; trivial.
    split; [apply flip_line_start|apply flip_line_end].
  - unfold image_to_gcode. rewrite Ec. simpl. rewrite Et. reflexivity.
Qed.

(** C9 at a concrete input: one segment, and one extracted contour. *)
Lemma C9_witness :
  let paths := [[Line (Complex 0 0) (Complex 10 4)]] in
  let attrs : gmap string string := {[ "viewBox" := "0 0 10 10" ]} in
  let contours : list contour := [[(0, 0); (1, 0)]] in
  let image_to_gcode' :=
    image_to_gcode (list Z) (fun sh => sh) (fun sh => sh) (fun _ _ => [[255]; [0]])
      (fun b _ => b) (fun _ => contours) in
  calculate_scaling_factor_and_transform float_of_decimal paths attrs None
  = Ok ([[Line (Complex 0 10) (Complex 10 6)]], (Fin 1, Fin 0, 10%Q))
  /\ image_to_gcode' (Some [2; 1; 3]) None 800 500 None None
     = Ok (generate_gcode contours 800 500 1 0 0).
Proof.
  intros paths attrs contours image_to_gcode'.
  assert (E : calculate_scaling_factor_and_transform float_of_decimal paths attrs None
              = Ok ([[Line (Complex 0 10) (Complex 10 6)]], (Fin 1, Fin 0, 10%Q)))
    by (vm_compute; reflexivity).
  split; [exact E|].
  apply (C9_normalize_mutation float_of_decimal paths _ attrs None _ _ _
           (list Z) (fun sh => sh) (fun sh => sh) (fun _ _ => [[255]; [0]])
           (fun b _ => b) (fun _ => contours) [2; 1; 3] [2; 1; 3] None contours
           800 500 None None 1%Q 0%Q 0%Q E); reflexivity.
Defined.

(** C9, as stated, fails for the vector converter: computing the scale of a
    one-segment scene hands back the segment with both Y values changed. *)
Lemma C9_vector_scale_flips_in_place :
  let paths := [[Line (Complex 0 0) (Complex 10 4)]] in
  calculate_scaling_factor_and_transform float_of_decimal paths
    {[ "viewBox" := "0 0 10 10" ]} None
  = Ok ([[Line (Complex 0 10) (Complex 10 6)]], (Fin 1, Fin 0, 10%Q))
  /\ [[Line (Complex 0 10) (Complex 10 6)]] <> paths.
Proof. split; [vm_compute; reflexivity | intros H; discriminate H]. Qed.

(** C3 at a concrete input: one square contour, and one path of two
    connected segments. *)
Lemma C3_witness :
  let contours : list contour := [[(0, 10); (10, 10); (10, 0); (0, 0)]] in
  let paths := [[Line (Complex 0 0) (Complex 10 0); Line (Complex 10 0) (Complex 10 10)]] in
  let attrs : gmap string string := {[ "viewBox" := "0 0 10 10" ]} in
  exists lines,
    svg_to_gcode float_of_decimal paths attrs 800 500 None None = Ok lines
    /\ map instruction_of (generate_gcode contours 800 500 2 0 0)
       = setup ++ emit (raster_point 2 0 0) 800 500 contours
    /\ exists paths' s mx h ox oy,
        calculate_scaling_factor_and_transform float_of_decimal paths attrs None
        = Ok (paths', (s, mx, h))
        /\ length
             (filter is_laser_off
                (flat_map (segment_block (svg_point s mx ox oy) 800 500) (concat paths')))
           = 2%nat.
Proof.
  intros contours paths attrs. eexists. split; [vm_compute; reflexivity|].
  destruct (C3_emission_per_contour_and_per_segment contours 800 500 2%Q 0%Q 0%Q
              float_of_decimal paths attrs None None _
              ltac:(repeat constructor; discriminate) ltac:(vm_compute; reflexivity))
    as [[R _] (paths' & s & mx & h & ox & oy & Ec & _ & _ & C & _)].
  split; [exact R|]. exists paths', s, mx, h, ox, oy. split; [exact Ec|exact C].
Defined.

(** C3, as stated, fails for the vector converter: a path of two connected
    segments, read as one curve of three points, should be written as one
    rapid move, laser on, two linear moves and one laser off; the converter
    writes two blocks and switches the laser off twice. *)
Lemma C3_vector_laser_off_per_segment :
  let paths := [[Line (Complex 0 0) (Complex 10 0); Line (Complex 10 0) (Complex 10 10)]] in
  let attrs : gmap string string := {[ "viewBox" := "0 0 10 10" ]} in
  exists lines paths' s mx h ox oy,
    svg_to_gcode float_of_decimal paths attrs 800 500 None None = Ok lines
    /\ calculate_scaling_factor_and_transform float_of_decimal paths attrs None
       = Ok (paths', (s, mx, h))
    /\ svg_offsets s mx h None = Ok (ox, oy)
    /\ map (@length complex) (map polyline_of_path paths') = [3%nat]
    /\ let claimed := emit (svg_point s mx ox oy) 800 500 (map polyline_of_path paths') in
       length (filter is_laser_off claimed) = 1%nat
       /\ length claimed = 6%nat
       /\ map instruction_of lines <> setup ++ claimed
       /\ length (filter is_laser_off (map instruction_of lines)) = (1 + 2)%nat
       /\ length (map instruction_of lines) = (3 + 8 + 1)%nat.
Proof.
  intros paths attrs. do 7 eexists.
  split; [vm_compute; reflexivity|]. split; [vm_compute; reflexivity|].
  split; [vm_compute; reflexivity|]. split; [reflexivity|].
  repeat split; try reflexivity. vm_compute. intros H; discriminate H.
Qed.

(** ** The declared height (C6) *)

Section DeclaredHeight.

Variable py_float : string -> option Q.

Lemma svg_height_view_box_first (attrs : gmap string string) (vb : string) (a b c h : Q)
    (t1 t2 t3 t4 : string) :
  attrs !! "viewBox" = Some vb ->
  py_split vb = [t1; t2; t3; t4] ->
  py_float t1 = Some a -> py_float t2 = Some b -> py_float t3 = Some c ->
  py_float t4 = Some h ->
  svg_height_of py_float attrs = Ok h.
Proof.
  intros E Es E1 E2 E3 E4. unfold svg_height_of. rewrite E, Es. simpl.
  now rewrite E1, E2, E3, E4.
Qed.

Lemma svg_height_missing (attrs : gmap string string) :
  attrs !! "viewBox" = None -> attrs !! "height" = None ->
  svg_height_of py_float attrs = Raise ValueError.
Proof. intros E1 E2. unfold svg_height_of. now rewrite E1, E2. Qed.

Lemma svg_height_from_height_attribute (attrs : gmap string string) (v : string) :
  attrs !! "viewBox" = None -> attrs !! "height" = Some v ->
  svg_height_of py_float attrs = Raise NameError.
Proof. intros E1 E2. unfold svg_height_of. now rewrite E1, E2. Qed.

(** C6 (defect).  A document that declares only a [height] attribute does
    not get its flip height from it: the branch reads a name that is not
    bound and the conversion stops with [NameError]. *)
Theorem C6_height_attribute_name_error :
  svg_height_of py_float {[ "height" := "100" ]} = Raise NameError
  /\ svg_to_gcode py_float [[Line (Complex 0 0) (Complex 10 4)]] {[ "height" := "100" ]}
       1000 1000 None None = Raise NameError.
Proof.
  assert (E : svg_height_of py_float {[ "height" := "100" ]} = Raise NameError).
  { apply svg_height_from_height_attribute with (v := "100"); reflexivity. }
  split; [exact E|].
  unfold svg_to_gcode, calculate_scaling_factor_and_transform. rewrite E. reflexivity.
Qed.

End DeclaredHeight.

(** ** Offsets (C2) *)

Lemma points_of_app (l1 l2 : list gline) : points_of (l1 ++ l2) = points_of l1 ++ points_of l2.
Proof. unfold points_of. apply flat_map_app. Qed.

Lemma points_of_program (header body footer : list gline) :
  points_of header = [] -> points_of footer = [] ->
  points_of (header ++ body ++ footer) = points_of body.
Proof.
  intros Eh Ef. rewrite !points_of_app, Eh, Ef. simpl. now rewrite app_nil_r.
Qed.

Lemma points_of_contours (power feed_rate : Z) (s ox oy : Q) (contours : list contour) :
  points_of (flat_map (contour_lines power feed_rate s ox oy) contours)
  = map (raster_point s ox oy) (concat contours).
Proof.
  induction contours as [|c cs IH]; simpl; [reflexivity|].
  rewrite points_of_app, map_app, IH. f_equal.
  destruct c as [|p ps]; simpl; [reflexivity|].
  f_equal. rewrite points_of_app. simpl. rewrite app_nil_r.
  induction ps as [|q ps IHp]; simpl; [reflexivity|]. now rewrite IHp.
Qed.

Lemma points_of_generate_gcode (contours : list contour) (power feed_rate : Z) (s ox oy : Q) :
  points_of (generate_gcode contours power feed_rate s ox oy)
  = map (raster_point s ox oy) (concat contours).
Proof.
  rewrite generate_gcode_lines. simpl.
  change (points_of (G21 :: G90 :: M5 EnsureOff :: ?l)) with (points_of l).
  rewrite points_of_app, points_of_contours. simpl. now rewrite app_nil_r.
Qed.









(** ** Degenerate geometry (C5) *)

Lemma fold_left_concat {A B : Type} (f : B -> A -> B) (ls : list (list A)) (b : B) :
  fold_left (fun b l => fold_left f l b) ls b = fold_left f (concat ls) b.
Proof.
  revert b; induction ls as [|l ls IH]; intros b; simpl; [reflexivity|].
  now rewrite IH, fold_left_app.
Qed.

Lemma scan_paths_concat (paths : list path) :
  scan_paths paths = fold_left scan_line (concat paths) bbox_init.
Proof. apply fold_left_concat. Qed.

Lemma raster_transform_total (shape : list Z) (m : Z) (target : option Q)
    (placement : option (Q * Q)) :
  py_max_shape shape = Ok m -> m <> 0 ->
  raster_transform shape target placement
  = Ok (match target with
        | None => 1%Q
        | Some t => if Qeq_bool t 0 then 1%Q else (t / inject_Z m)%Q
        end,
        fst (default_placement placement), snd (default_placement placement)).
Proof.
  intros Em Hm. unfold raster_transform, default_placement. rewrite Em.
  apply Z.eqb_neq in Hm.
  destruct target as [t|]; simpl; [destruct (Qeq_bool t 0); simpl; rewrite ?Hm; simpl|];
    destruct placement as [[a b]|]; reflexivity.
Qed.

(** C5 (as the code has it).  Vector converter: when the scanned bounding
    box has longest side exactly zero and a target size is given, the scale
    computation stops with [ZeroDivisionError] (there is no error of its
    own for the case); when there is no segment at all the longest side is
    [-inf] and the computation returns scale 0 without failing.  Raster
    converter: the scale is the target divided by the largest image
    dimension, so no contour geometry makes it fail. *)
Theorem C5_degenerate_geometry
    (py_float : string -> option Q) (attrs : gmap string string) (h t l : Q)
    (paths empty : list path) (power feed_rate : Z) (placement : option (Q * Q))
    (shape : list Z) (m : Z) :
  svg_height_of py_float attrs = Ok h ->
  longest_side_of (scan_paths paths) = Fin l ->
  (l == 0)%Q ->
  concat empty = [] ->
  py_max_shape shape = Ok m ->
  m <> 0 ->
  calculate_scaling_factor_and_transform py_float paths attrs (Some t)
  = Raise ZeroDivisionError
  /\ svg_to_gcode py_float paths attrs power feed_rate (Some t) placement
     = Raise ZeroDivisionError
  /\ calculate_scaling_factor_and_transform py_float empty attrs (Some t)
     = Ok (flip_paths h empty, (Fin 0, PInf, h))
  /\ raster_transform shape (Some t) placement
     = Ok (if Qeq_bool t 0 then 1%Q else (t / inject_Z m)%Q,
           fst (default_placement placement), snd (default_placement placement)).
Proof.
  intros Eh El Hl Ee Em Hm.
  assert (E : calculate_scaling_factor_and_transform py_float paths attrs (Some t)
              = Raise ZeroDivisionError).
  { rewrite (calculate_unfold _ _ _ _ _ Eh), El. unfold fdiv. simpl.
    apply Qeq_bool_iff in Hl. now rewrite Hl. }
  repeat split.
  - exact E.
  - unfold svg_to_gcode. now rewrite E.
  - rewrite (calculate_unfold _ _ _ _ _ Eh), scan_paths_concat, Ee. reflexivity.
  - now apply (raster_transform_total shape m (Some t) placement).
Qed.

(** C5 at a concrete input: a segment whose end points coincide. *)
Lemma C5_witness :
  let attrs : gmap string string := {[ "viewBox" := "0 0 10 10" ]} in
  let paths := [[Line (Complex 3 3) (Complex 3 3)]] in
  svg_height_of float_of_decimal attrs = Ok 10%Q
  /\ longest_side_of (scan_paths paths) = Fin 0
  /\ calculate_scaling_factor_and_transform float_of_decimal paths attrs (Some 20%Q)
     = Raise ZeroDivisionError.
Proof.
  intros attrs paths.
  assert (Eh : svg_height_of float_of_decimal attrs = Ok 10%Q) by reflexivity.
  assert (El : longest_side_of (scan_paths paths) = Fin 0) by reflexivity.
  split; [exact Eh|split; [exact El|]].
  refine (proj1 (C5_degenerate_geometry float_of_decimal attrs 10%Q 20%Q 0%Q paths [[]]
                   1000 1000 None [10; 10; 3] 10 Eh El _ _ _ _)).
  - reflexivity.
  - reflexivity.
  - reflexivity.
  - discriminate.
Defined.

(** C5, as stated, fails: with a target size of 20 the raster converter
    accepts a scene whose only contour is a single point, and the vector
    converter accepts a scene without any segment. *)
Lemma C5_degenerate_scenes_accepted :
  let contours : list contour := [[(3, 3)]] in
  let attrs : gmap string string := {[ "viewBox" := "0 0 10 10" ]} in
  let image_to_gcode' :=
    image_to_gcode (list Z) (fun sh => sh) (fun sh => sh) (fun _ _ => [[255]; [0]])
      (fun b _ => b) (fun _ => contours) in
  longest_side_of (bbox_of_points (contour_points contours)) = Fin 0
  /\ raster_transform [10; 10; 3] (Some 20%Q) None = Ok ((20 / 10)%Q, 0%Q, 0%Q)
  /\ image_to_gcode' (Some [10; 10; 3]) None 1000 1000 (Some 20%Q) None
     = Ok (generate_gcode contours 1000 1000 (20 / 10) 0 0)
  /\ longest_side_of (scan_paths []) = NInf
  /\ svg_to_gcode float_of_decimal [] attrs 1000 1000 (Some 20%Q) None
     = Ok [G21; G90; M5 StartOff; G0_X0_Y0].
Proof. intros contours attrs image_to_gcode'. repeat split; vm_compute; reflexivity. Qed.

(** ** Bounding boxes of finite points *)

Lemma Qlt_bool_iff (a b : Q) : Qlt_bool a b = true <-> (a < b)%Q.
Proof.
  unfold Qlt_bool. rewrite negb_true_iff. split.
  - intros E. apply Qnot_le_lt. intros H. apply Qle_bool_iff in H. congruence.
  - intros H. destruct (Qle_bool b a) eqn:E; trivial.
    apply Qle_bool_iff in E. lra.
Qed.

Lemma Qlt_bool_false (a b : Q) : Qlt_bool a b = false <-> (b <= a)%Q.
Proof.
  unfold Qlt_bool. rewrite negb_false_iff. apply Qle_bool_iff.
Qed.

Lemma lo_PInf_cons (x : Q) (l : list Q) : lo PInf (x :: l) = lo (Fin x) l.
Proof. reflexivity. Qed.

Lemma hi_NInf_cons (x : Q) (l : list Q) : hi NInf (x :: l) = hi (Fin x) l.
Proof. reflexivity. Qed.

Lemma lo_Fin (l : list Q) (a : Q) :
  exists m, lo (Fin a) l = Fin m /\ lower m (a :: l).
Proof.
  revert a; induction l as [|x l IH]; intros a.
  - exists a. split; [reflexivity|]. split.
    + exists a. split; [now left | reflexivity].
    + intros y [<-|[]]. lra.
  - change (lo (Fin a) (x :: l)) with (lo (py_min2 (Fin a) (Fin x)) l).
    unfold py_min2. simpl. destruct (Qlt_bool x a) eqn:E.
    + apply Qlt_bool_iff in E. destruct (IH x) as (m & Em & [(w & Hw & Ew) Hm]).
      exists m. split; [exact Em|]. split.
      * exists w. split; [right; exact Hw | exact Ew].
      * intros y [<-|Hy]; [|now apply Hm].
        specialize (Hm x (or_introl eq_refl)). lra.
    + apply Qlt_bool_false in E. destruct (IH a) as (m & Em & [(w & Hw & Ew) Hm]).
      exists m. split; [exact Em|]. split.
      * exists w. split; [|exact Ew]. destruct Hw as [<-|Hw]; [now left | now right; right].
      * intros y [<-|[<-|Hy]].
        -- apply Hm. now left.
        -- specialize (Hm a (or_introl eq_refl)). lra.
        -- apply Hm. now right.
Qed.

Lemma hi_Fin (l : list Q) (a : Q) :
  exists m, hi (Fin a) l = Fin m /\ upper m (a :: l).
Proof.
  revert a; induction l as [|x l IH]; intros a.
  - exists a. split; [reflexivity|]. split.
    + exists a. split; [now left | reflexivity].
    + intros y [<-|[]]. lra.
  - change (hi (Fin a) (x :: l)) with (hi (py_max2 (Fin a) (Fin x)) l).
    unfold py_max2. simpl. destruct (Qlt_bool a x) eqn:E.
    + apply Qlt_bool_iff in E. destruct (IH x) as (m & Em & [(w & Hw & Ew) Hm]).
      exists m. split; [exact Em|]. split.
      * exists w. split; [right; exact Hw | exact Ew].
      * intros y [<-|Hy]; [|now apply Hm].
        specialize (Hm x (or_introl eq_refl)). lra.
    + apply Qlt_bool_false in E. destruct (IH a) as (m & Em & [(w & Hw & Ew) Hm]).
      exists m. split; [exact Em|]. split.
      * exists w. split; [|exact Ew]. destruct Hw as [<-|Hw]; [now left | now right; right].
      * intros y [<-|[<-|Hy]].
        -- apply Hm. now left.
        -- specialize (Hm a (or_introl eq_refl)). lra.
        -- apply Hm. now right.
Qed.

Lemma lo_nonempty (l : list Q) : l <> [] -> exists m, lo PInf l = Fin m /\ lower m l.
Proof. destruct l as [|x l]; [congruence|]. intros _. rewrite lo_PInf_cons. apply lo_Fin. Qed.

Lemma hi_nonempty (l : list Q) : l <> [] -> exists m, hi NInf l = Fin m /\ upper m l.
Proof. destruct l as [|x l]; [congruence|]. intros _. rewrite hi_NInf_cons. apply hi_Fin. Qed.

Lemma lower_unique (m m' : Q) (l : list Q) : lower m l -> lower m' l -> (m == m')%Q.
Proof.
  intros [(x & Hx & Ex) Hm] [(x' & Hx' & Ex') Hm'].
  specialize (Hm x' Hx'). specialize (Hm' x Hx). lra.
Qed.

Lemma upper_unique (m m' : Q) (l : list Q) : upper m l -> upper m' l -> (m == m')%Q.
Proof.
  intros [(x & Hx & Ex) Hm] [(x' & Hx' & Ex') Hm'].
  specialize (Hm x' Hx'). specialize (Hm' x Hx). lra.
Qed.

Section Monotone.

Variable f : Q -> Q.

Lemma lower_map_increasing (m : Q) (l : list Q) :
  (forall x y, (x <= y)%Q -> (f x <= f y)%Q) ->
  lower m l -> lower (f m) (map f l).
Proof.
  intros Hf [(x & Hx & Ex) Hm]. split.
  - exists (f x). split; [now apply in_map|].
    apply Qle_antisym; apply Hf; lra.
  - intros y Hy. apply in_map_iff in Hy. destruct Hy as (z & <- & Hz). auto.
Qed.

Lemma upper_map_increasing (m : Q) (l : list Q) :
  (forall x y, (x <= y)%Q -> (f x <= f y)%Q) ->
  upper m l -> upper (f m) (map f l).
Proof.
  intros Hf [(x & Hx & Ex) Hm]. split.
  - exists (f x). split; [now apply in_map|].
    apply Qle_antisym; apply Hf; lra.
  - intros y Hy. apply in_map_iff in Hy. destruct Hy as (z & <- & Hz). auto.
Qed.

Lemma lower_map_decreasing (m : Q) (l : list Q) :
  (forall x y, (x <= y)%Q -> (f y <= f x)%Q) ->
  upper m l -> lower (f m) (map f l).
Proof.
  intros Hf [(x & Hx & Ex) Hm]. split.
  - exists (f x). split; [now apply in_map|].
    apply Qle_antisym; apply Hf; lra.
  - intros y Hy. apply in_map_iff in Hy. destruct Hy as (z & <- & Hz). auto.
Qed.

Lemma upper_map_decreasing (m : Q) (l : list Q) :
  (forall x y, (x <= y)%Q -> (f y <= f x)%Q) ->
  lower m l -> upper (f m) (map f l).
Proof.
  intros Hf [(x & Hx & Ex) Hm]. split.
  - exists (f x). split; [now apply in_map|].
    apply Qle_antisym; apply Hf; lra.
  - intros y Hy. apply in_map_iff in Hy. destruct Hy as (z & <- & Hz). auto.
Qed.

End Monotone.

Lemma bbox_of_points_fold (qpts : list (Q * Q)) (b : bbox) :
  fold_left
    (fun b p => BBox (py_min2 (min_x b) (fst p)) (py_min2 (min_y b) (snd p))
                     (py_max2 (max_x b) (fst p)) (py_max2 (max_y b) (snd p)))
    (map lift_point qpts) b
  = BBox (lo (min_x b) (map fst qpts)) (lo (min_y b) (map snd qpts))
         (hi (max_x b) (map fst qpts)) (hi (max_y b) (map snd qpts)).
Proof.
  revert b; induction qpts as [|p qpts IH]; intros b; simpl.
  - now destruct b.
  - rewrite IH. reflexivity.
Qed.

Lemma bbox_of_points_lift (qpts : list (Q * Q)) :
  bbox_of_points (map lift_point qpts)
  = BBox (lo PInf (map fst qpts)) (lo PInf (map snd qpts))
         (hi NInf (map fst qpts)) (hi NInf (map snd qpts)).
Proof. unfold bbox_of_points. now rewrite bbox_of_points_fold. Qed.

Lemma scan_lines_fold (sgs : list segment) (b : bbox) :
  fold_left scan_line sgs b
  = BBox (lo (min_x b) (map fst (seg_xy sgs))) (lo (min_y b) (map snd (seg_xy sgs)))
         (hi (max_x b) (map fst (seg_xy sgs))) (hi (max_y b) (map snd (seg_xy sgs))).
Proof.
  revert b; induction sgs as [|sg sgs IH]; intros b; simpl.
  - now destruct b.
  - rewrite IH. reflexivity.
Qed.

Lemma scan_paths_lo_hi (paths : list path) :
  scan_paths paths
  = BBox (lo PInf (map fst (seg_xy (concat paths)))) (lo PInf (map snd (seg_xy (concat paths))))
         (hi NInf (map fst (seg_xy (concat paths)))) (hi NInf (map snd (seg_xy (concat paths)))).
Proof. rewrite scan_paths_concat. apply scan_lines_fold. Qed.

(** The scanned box equals the box of the end points. *)
Lemma scan_paths_points (paths : list path) :
  scan_paths paths = bbox_of_points (map lift_point (seg_xy (concat paths))).
Proof. now rewrite scan_paths_lo_hi, bbox_of_points_lift. Qed.

Lemma longest_side_empty : longest_side_of (bbox_of_points []) = NInf.
Proof. reflexivity. Qed.

Lemma longest_side_finite (qpts : list (Q * Q)) (l : Q) :
  longest_side_of (bbox_of_points (map lift_point qpts)) = Fin l ->
  exists mx my Mx My,
    lower mx (map fst qpts) /\ lower my (map snd qpts)
    /\ upper Mx (map fst qpts) /\ upper My (map snd qpts)
    /\ bbox_of_points (map lift_point qpts) = BBox (Fin mx) (Fin my) (Fin Mx) (Fin My)
    /\ l = if Qlt_bool (Mx - mx) (My - my) then (My - my)%Q else (Mx - mx)%Q.
Proof.
  intros El. destruct qpts as [|p qpts]; [discriminate|].
  rewrite bbox_of_points_lift in El |- *.
  destruct (lo_nonempty (map fst (p :: qpts))) as (mx & Emx & Hmx); [discriminate|].
  destruct (lo_nonempty (map snd (p :: qpts))) as (my & Emy & Hmy); [discriminate|].
  destruct (hi_nonempty (map fst (p :: qpts))) as (Mx & EMx & HMx); [discriminate|].
  destruct (hi_nonempty (map snd (p :: qpts))) as (My & EMy & HMy); [discriminate|].
  rewrite Emx, Emy, EMx, EMy in El |- *.
  exists mx, my, Mx, My.
  split; [exact Hmx|]. split; [exact Hmy|]. split; [exact HMx|]. split; [exact HMy|].
  split; [reflexivity|].
  unfold longest_side_of, py_max2 in El. simpl in El.
  change (Mx + - mx)%Q with (Mx - mx)%Q in El. change (My + - my)%Q with (My - my)%Q in El.
  destruct (Qlt_bool _ _); injection El as <-; reflexivity.
Qed.

(** A uniform scaling by [s > 0], composed with translations and possibly a
    mirroring of the Y axis, multiplies the longest side by [s]. *)
Lemma longest_side_scaled (qpts : list (Q * Q)) (fx fy : Q -> Q) (s bx ay b_y l : Q) :
  (0 < s)%Q ->
  (forall x, fx x == s * x + bx)%Q ->
  (forall y, fy y == ay * y + b_y)%Q ->
  (ay == s \/ ay == - s)%Q ->
  longest_side_of (bbox_of_points (map lift_point qpts)) = Fin l ->
  exists l',
    longest_side_of
      (bbox_of_points (map lift_point (map (fun p => (fx (fst p), fy (snd p))) qpts)))
    = Fin l'
    /\ (l' == s * l)%Q.
Proof.
  intros Hs Hfx Hfy Hay El.
  destruct (longest_side_finite _ _ El) as (mx & my & Mx & My & Hmx & Hmy & HMx & HMy & _ & ->).
  assert (NE : qpts <> []) by (intros ->; discriminate).
  set (qpts' := map (fun p => (fx (fst p), fy (snd p))) qpts).
  assert (Ex : map fst qpts' = map fx (map fst qpts)).
  { unfold qpts'. rewrite !map_map. reflexivity. }
  assert (Ey : map snd qpts' = map fy (map snd qpts)).
  { unfold qpts'. rewrite !map_map. reflexivity. }
  assert (NE' : map fst qpts' <> [] /\ map snd qpts' <> []).
  { unfold qpts'. destruct qpts; [congruence|]. split; discriminate. }
  destruct NE' as [NEx NEy].
  rewrite bbox_of_points_lift.
  destruct (lo_nonempty _ NEx) as (mx' & Emx & Hmx').
  destruct (lo_nonempty _ NEy) as (my' & Emy & Hmy').
  destruct (hi_nonempty _ NEx) as (Mx' & EMx & HMx').
  destruct (hi_nonempty _ NEy) as (My' & EMy & HMy').
  rewrite Emx, Emy, EMx, EMy. rewrite Ex in Hmx', HMx'. rewrite Ey in Hmy', HMy'.
  assert (Ix : forall x y, (x <= y)%Q -> (fx x <= fx y)%Q).
  { intros x y Hxy. rewrite (Hfx x), (Hfx y). nra. }
  assert (Wx : (Mx' - mx' == s * (Mx - mx))%Q).
  { rewrite (lower_unique _ _ _ Hmx' (lower_map_increasing fx _ _ Ix Hmx)).
    rewrite (upper_unique _ _ _ HMx' (upper_map_increasing fx _ _ Ix HMx)).
    rewrite (Hfx mx), (Hfx Mx). ring. }
  assert (Wy : (My' - my' == s * (My - my))%Q).
  { destruct Hay as [Hay|Hay].
    - assert (Iy : forall x y, (x <= y)%Q -> (fy x <= fy y)%Q).
      { intros x y Hxy. rewrite (Hfy x), (Hfy y), Hay. nra. }
      rewrite (lower_unique _ _ _ Hmy' (lower_map_increasing fy _ _ Iy Hmy)).
      rewrite (upper_unique _ _ _ HMy' (upper_map_increasing fy _ _ Iy HMy)).
      rewrite (Hfy my), (Hfy My), Hay. ring.
    - assert (Dy : forall x y, (x <= y)%Q -> (fy y <= fy x)%Q).
      { intros x y Hxy. rewrite (Hfy x), (Hfy y), Hay. nra. }
      rewrite (lower_unique _ _ _ Hmy' (lower_map_decreasing fy _ _ Dy HMy)).
      rewrite (upper_unique _ _ _ HMy' (upper_map_decreasing fy _ _ Dy Hmy)).
      rewrite (Hfy my), (Hfy My), Hay. ring. }
  unfold longest_side_of, py_max2. simpl.
  change (Mx' + - mx')%Q with (Mx' - mx')%Q. change (My' + - my')%Q with (My' - my')%Q.
  destruct (Qlt_bool (Mx' - mx') (My' - my')) eqn:C';
    destruct (Qlt_bool (Mx - mx) (My - my)) eqn:C;
    eexists; (split; [reflexivity|]);
    try apply Qlt_bool_iff in C'; try apply Qlt_bool_false in C';
    try apply Qlt_bool_iff in C; try apply Qlt_bool_false in C.
  - exact Wy.
  - rewrite Wx, Wy in C'. rewrite Wy. nra.
  - rewrite Wx, Wy in C'. rewrite Wx. nra.
  - exact Wx.
Qed.

(** ** Scale (C1) *)

Lemma seg_xy_flip (h : Q) (sgs : list segment) :
  seg_xy (map (flip_line h) sgs) = map (fun p => (fst p, (h - snd p)%Q)) (seg_xy sgs).
Proof.
  induction sgs as [|sg sgs IH]; simpl; [reflexivity|].
  now rewrite IH, flip_line_start, flip_line_end.
Qed.

Lemma concat_flip_paths (h : Q) (paths : list path) :
  concat (flip_paths h paths) = map (flip_line h) (concat paths).
Proof. unfold flip_paths. now rewrite concat_map. Qed.

Lemma points_of_segments (s m ox oy : Q) (feed_rate power : Z) (sgs : list segment) :
  points_of (flat_map (segment_lines (Fin s) (Fin m) (Fin ox) (Fin oy) feed_rate power) sgs)
  = map lift_point
      (map (fun p => ((fst p - m) * s + ox, snd p * s + oy)%Q) (seg_xy sgs)).
Proof.
  induction sgs as [|sg sgs IH]; simpl; [reflexivity|].
  rewrite <- IH. reflexivity.
Qed.

Lemma contour_points_lift (contours : list contour) :
  contour_points contours
  = map lift_point (map (fun p => (inject_Z (fst p), inject_Z (snd p))) (concat contours)).
Proof.
  unfold contour_points. induction contours as [|c cs IH]; simpl; [reflexivity|].
  rewrite IH, !map_app, !map_map. reflexivity.
Qed.

Lemma svg_offsets_finite (s m h : Q) (placement : option (Q * Q)) :
  exists ox oy, svg_offsets (Fin s) (Fin m) h placement = Ok (Fin ox, Fin oy).
Proof. destruct placement as [[px py]|]; eexists; eexists; reflexivity. Qed.

Lemma fdiv_finite (t l : Q) : ~ (l == 0)%Q -> fdiv (Fin t) (Fin l) = Ok (Fin (t / l)).
Proof.
  intros Hl. unfold fdiv. simpl. destruct (Qeq_bool l 0) eqn:E; [|reflexivity].
  apply Qeq_bool_iff in E. contradiction.
Qed.

(** C1 (as the code has it).  Vector converter: for a scene whose scanned
    bounding box has longest side [l > 0] and a target [t > 0] the scale
    factor is [t / l] (and 1 without a target), and the bounding box of the
    written points has longest side [t].  Raster converter: the scale factor
    is [t] divided by the largest entry of the image shape (and 1 without a
    target), whatever the bounding box of the contours; the written points
    then span [t / m] times the longest side [lc] of the contours. *)
Theorem C1_scale
    (py_float : string -> option Q) (paths : list path) (attrs : gmap string string)
    (power feed_rate : Z) (placement : option (Q * Q)) (h t l : Q)
    (shape : list Z) (m : Z) (contours : list contour) (lc : Q) :
  svg_height_of py_float attrs = Ok h ->
  longest_side_of (scan_paths paths) = Fin l ->
  (0 < l)%Q ->
  (0 < t)%Q ->
  py_max_shape shape = Ok m ->
  0 < m ->
  longest_side_of (bbox_of_points (contour_points contours)) = Fin lc ->
  (calculate_scaling_factor_and_transform py_float paths attrs (Some t)
   = Ok (flip_paths h paths, (Fin (t / l), min_x (scan_paths paths), h))
   /\ calculate_scaling_factor_and_transform py_float paths attrs None
      = Ok (flip_paths h paths, (Fin 1, min_x (scan_paths paths), h))
   /\ exists lines,
       svg_to_gcode py_float paths attrs power feed_rate (Some t) placement = Ok lines
       /\ feq (longest_side_of (bbox_of_points (points_of lines))) (Fin t))
  /\ raster_transform shape (Some t) placement
     = Ok ((t / inject_Z m)%Q, fst (default_placement placement),
           snd (default_placement placement))
  /\ raster_transform shape None placement
     = Ok (1%Q, fst (default_placement placement), snd (default_placement placement))
  /\ feq (longest_side_of
            (bbox_of_points
               (points_of
                  (generate_gcode contours power feed_rate (t / inject_Z m)
                     (fst (default_placement placement))
                     (snd (default_placement placement))))))
         (Fin (t / inject_Z m * lc)).
Proof.
  intros Eh El Hl Ht Em Hm Elc.
  assert (Hl0 : ~ (l == 0)%Q) by lra.
  assert (Ec : calculate_scaling_factor_and_transform py_float paths attrs (Some t)
               = Ok (flip_paths h paths, (Fin (t / l), min_x (scan_paths paths), h))).
  { rewrite (calculate_unfold _ _ _ _ _ Eh), El, (fdiv_finite _ _ Hl0). reflexivity. }
  assert (Hs : (0 < t / l)%Q).
  { apply Qlt_shift_div_l; lra. }
  split; [split; [exact Ec|split]|].
  - now rewrite (calculate_unfold _ _ _ _ _ Eh).
  - rewrite scan_paths_points in El, Ec.
    destruct (longest_side_finite _ _ El) as (mx & my & Mx & My & _ & _ & _ & _ & Eb & _).
    rewrite Eb in Ec. simpl in Ec.
    destruct (svg_offsets_finite (t / l) mx h placement) as (ox & oy & Eo).
    eexists. split; [exact (svg_to_gcode_unfold _ _ _ _ _ _ _ _ _ _ _ _ _ Ec Eo)|].
    rewrite points_of_program by reflexivity.
    rewrite concat_flip_paths, points_of_segments, seg_xy_flip, !map_map. simpl.
    destruct (longest_side_scaled (seg_xy (concat paths))
                (fun x => (x - mx) * (t / l) + ox)%Q
                (fun y => (h - y) * (t / l) + oy)%Q
                (t / l) (ox - mx * (t / l)) (- (t / l)) (h * (t / l) + oy) l Hs)
      as (l' & El' & Hl'); trivial.
    + intros x. ring.
    + intros y. ring.
    + right. reflexivity.
    + rewrite map_map in El'. simpl in El'. rewrite El'. simpl. rewrite Hl'. field. exact Hl0.
  - assert (Ht0 : Qeq_bool t 0 = false).
    { destruct (Qeq_bool t 0) eqn:E; trivial. apply Qeq_bool_iff in E. lra. }
    assert (Hm0 : m <> 0) by lia.
    split; [|split].
    + rewrite (raster_transform_total shape m (Some t) placement Em Hm0). now rewrite Ht0.
    + now rewrite (raster_transform_total shape m None placement Em Hm0).
    + rewrite points_of_generate_gcode.
      rewrite contour_points_lift in Elc.
      assert (Hs' : (0 < t / inject_Z m)%Q).
      { apply Qlt_shift_div_l; [|lra]. change 0%Q with (inject_Z 0). now rewrite <- Zlt_Qlt. }
      set (ox := fst (default_placement placement)).
      set (oy := snd (default_placement placement)).
      destruct (longest_side_scaled
                  (map (fun p : Z * Z => (inject_Z (fst p), inject_Z (snd p))) (concat contours))
                  (fun x => x * (t / inject_Z m) + ox)%Q
                  (fun y => y * (t / inject_Z m) + oy)%Q
                  (t / inject_Z m) ox (t / inject_Z m) oy lc Hs')
        as (l' & El' & Hl'); trivial.
      * intros x. ring.
      * intros y. ring.
      * left. reflexivity.
      * replace (map (raster_point (t / inject_Z m) ox oy) (concat contours))
          with (map lift_point
                  (map (fun p : Q * Q =>
                          ((fst p * (t / inject_Z m) + ox)%Q, (snd p * (t / inject_Z m) + oy)%Q))
                     (map (fun p : Z * Z => (inject_Z (fst p), inject_Z (snd p)))
                        (concat contours))))
          by (rewrite !map_map; reflexivity).
        rewrite El'. exact Hl'.
Qed.

(** C1 at a concrete scene: one segment in a 10 by 10 document, target 20;
    a 10 by 10 image with a contour spanning 9 pixels. *)
Lemma C1_witness :
  let paths := [[Line (Complex 0 0) (Complex 10 4)]] in
  let attrs : gmap string string := {[ "viewBox" := "0 0 10 10" ]} in
  let contours : list contour := [[(0, 0); (9, 0); (9, 9); (0, 9)]] in
  svg_height_of float_of_decimal attrs = Ok 10%Q
  /\ longest_side_of (scan_paths paths) = Fin 10
  /\ py_max_shape [10; 10; 3] = Ok 10
  /\ longest_side_of (bbox_of_points (contour_points contours)) = Fin 9
  /\ calculate_scaling_factor_and_transform float_of_decimal paths attrs (Some 20%Q)
     = Ok (flip_paths 10 paths, (Fin (20 / 10), min_x (scan_paths paths), 10%Q)).
Proof.
  intros paths attrs contours.
  assert (Eh : svg_height_of float_of_decimal attrs = Ok 10%Q) by reflexivity.
  assert (El : longest_side_of (scan_paths paths) = Fin 10) by reflexivity.
  assert (Em : py_max_shape [10; 10; 3] = Ok 10) by reflexivity.
  assert (Ec : longest_side_of (bbox_of_points (contour_points contours)) = Fin 9)
    by reflexivity.
  repeat (split; [eassumption|]).
  refine (proj1 (proj1 (C1_scale float_of_decimal paths attrs 800 500 None 10%Q 20%Q 10%Q
                          [10; 10; 3] 10 contours 9%Q Eh El _ _ Em _ Ec)));
    reflexivity.
Defined.

(** C1, as stated, fails for the raster converter: in a 10 by 10 image whose
    contour spans pixels 0 to 9 the longest side is 9, yet for a target of 20
    the scale factor is 20 / 10, not 20 / 9, and the written points span 18. *)
Lemma C1_raster_scale_uses_image_size :
  let contours : list contour := [[(0, 0); (9, 0); (9, 9); (0, 9)]] in
  longest_side_of (bbox_of_points (contour_points contours)) = Fin 9
  /\ raster_transform [10; 10; 3] (Some 20%Q) None = Ok ((20 / 10)%Q, 0%Q, 0%Q)
  /\ ~ (20 / 10 == 20 / 9)%Q
  /\ feq (longest_side_of
            (bbox_of_points (points_of (generate_gcode contours 1000 1000 (20 / 10) 0 0))))
         (Fin 18)
  /\ ~ feq (longest_side_of
              (bbox_of_points (points_of (generate_gcode contours 1000 1000 (20 / 10) 0 0))))
           (Fin 20).
Proof.
  intros contours. repeat split; try (vm_compute; reflexivity);
    vm_compute; intros H; discriminate H.
Qed.

(** ** Text of the lines (C8) *)

Lemma digit_not_newline (c : ascii) : is_digit c = true -> is_newline c = false.
Proof.
  unfold is_newline. destruct (Ascii.eqb_spec c (ascii_of_nat 10)) as [->|]; [|reflexivity].
  discriminate.
Qed.

Lemma all_digits_no_newline (s : string) : all_digits s = true -> no_newline s = true.
Proof.
  induction s as [|c s IH]; simpl; [reflexivity|].
  intros H. apply andb_true_iff in H. destruct H as [Hc Hs].
  now rewrite (digit_not_newline c Hc), IH.
Qed.

Lemma no_newline_app (a b : string) :
  no_newline (a +:+ b) = no_newline a && no_newline b.
Proof.
  induction a as [|c a IH]; simpl; [reflexivity|].
  now rewrite IH, andb_assoc.
Qed.

Lemma single_line_app (a b : string) :
  no_newline a = true -> single_line (a +:+ b) = single_line b.
Proof.
  induction a as [|c a IH]; simpl; [reflexivity|].
  intros H. apply andb_true_iff in H. destruct H as [Hc Ha].
  apply negb_true_iff in Hc. rewrite Hc. now apply IH.
Qed.

Lemma all_digits_uint (u : Decimal.uint) : all_digits (NilEmpty.string_of_uint u) = true.
Proof. induction u; simpl; trivial. Qed.

Lemma all_digits_str_nat (n : Z) : all_digits (str_nat n) = true /\ str_nat n <> "".
Proof.
  unfold str_nat. destruct (N.to_uint (Z.to_N n)) eqn:E; simpl;
    (split; [try reflexivity; apply all_digits_uint | discriminate]).
Qed.

Lemma no_newline_str_int (n : Z) : no_newline (str_int n) = true.
Proof.
  unfold str_int.
  assert (H : forall u, no_newline (NilZero.string_of_uint u) = true).
  { intros u. apply all_digits_no_newline.
    destruct u; simpl; try reflexivity; apply all_digits_uint. }
  destruct (Z.to_int n) as [u|u]; simpl; apply H.
Qed.

Lemma is_digit_digit_char (d : Z) : 0 <= d <= 9 -> is_digit (digit_char d) = true.
Proof.
  intros H.
  assert (C : d = 0 \/ d = 1 \/ d = 2 \/ d = 3 \/ d = 4 \/ d = 5 \/ d = 6 \/ d = 7
              \/ d = 8 \/ d = 9) by lia.
  repeat (destruct C as [->|C]; [reflexivity|]). subst d. reflexivity.
Qed.

Lemma format_3f_fixed3 (q : Q) : fixed3 (format_3f (Fin q)).
Proof.
  simpl. unfold format_3f_Q. set (m := round_half_even (Qabs q * 1000)).
  exists (if Qlt_bool q 0 then "-" else ""), (str_nat (m / 1000)).
  exists (digit_char (m mod 1000 / 100)), (digit_char (m mod 100 / 10)), (digit_char (m mod 10)).
  destruct (all_digits_str_nat (m / 1000)) as [Hd Hn].
  split; [reflexivity|]. split; [destruct (Qlt_bool q 0); auto|].
  split; [exact Hn|]. split; [exact Hd|].
  pose proof (Z.mod_pos_bound m 1000 eq_refl).
  pose proof (Z.mod_pos_bound m 100 eq_refl).
  pose proof (Z.mod_pos_bound m 10 eq_refl).
  repeat split; apply is_digit_digit_char.
  - pose proof (Z.div_pos (m mod 1000) 100).
    pose proof (Z.div_lt_upper_bound (m mod 1000) 100 10). lia.
  - pose proof (Z.div_pos (m mod 100) 10).
    pose proof (Z.div_lt_upper_bound (m mod 100) 10 10). lia.
  - lia.
Qed.

Lemma fixed3_no_newline (s : string) : fixed3 s -> no_newline s = true.
Proof.
  intros (sign & ip & a & b & c & -> & Hs & _ & Hip & Ha & Hb & Hc).
  rewrite !no_newline_app, (all_digits_no_newline _ Hip). simpl.
  rewrite (digit_not_newline a Ha), (digit_not_newline b Hb), (digit_not_newline c Hc).
  destruct Hs as [->| ->]; reflexivity.
Qed.

Lemma no_newline_format_3f (x : pyfloat) : no_newline (format_3f x) = true.
Proof.
  destruct x as [q| | |]; try reflexivity.
  apply fixed3_no_newline, format_3f_fixed3.
Qed.

Lemma render_single_line (l : gline) : single_line (render l) = true.
Proof.
  destruct l as [| |n|x y|p|x y f|]; try reflexivity.
  - destruct n; reflexivity.
  - unfold render.
    rewrite (single_line_app "G0 X") by reflexivity.
    rewrite (single_line_app (format_3f x)) by apply no_newline_format_3f.
    rewrite (single_line_app " Y") by reflexivity.
    rewrite (single_line_app (format_3f y)) by apply no_newline_format_3f. reflexivity.
  - unfold render.
    rewrite (single_line_app "M3 S") by reflexivity.
    rewrite (single_line_app (str_int p)) by apply no_newline_str_int. reflexivity.
  - unfold render.
    rewrite (single_line_app "G1 X") by reflexivity.
    rewrite (single_line_app (format_3f x)) by apply no_newline_format_3f.
    rewrite (single_line_app " Y") by reflexivity.
    rewrite (single_line_app (format_3f y)) by apply no_newline_format_3f.
    rewrite (single_line_app " F") by reflexivity.
    rewrite (single_line_app (str_int f)) by apply no_newline_str_int. reflexivity.
Qed.

Lemma last_program (header body : list gline) (d : gline) :
  List.last (header ++ body ++ [G0_X0_Y0]) d = G0_X0_Y0.
Proof. rewrite app_assoc. apply last_last. Qed.

Lemma string_app_assoc (a b c : string) : (a +:+ b) +:+ c = a +:+ (b +:+ c).
Proof. induction a as [|x a IH]; [reflexivity|]. exact (f_equal (String x) IH). Qed.

Lemma file_text_app (l1 l2 : list gline) :
  file_text (l1 ++ l2) = file_text l1 +:+ file_text l2.
Proof.
  unfold file_text. rewrite map_app.
  generalize (map render l1) (map render l2). intros a b.
  induction a as [|x a IH]; [reflexivity|].
  cbn [fold_right app]. rewrite IH. symmetry. apply string_app_assoc.
Qed.

Lemma file_text_program (header body : list gline) :
  file_text (header ++ body ++ [G0_X0_Y0])
  = file_text (header ++ body) +:+ "G0 X0 Y0" +:+ newline.
Proof. rewrite app_assoc, file_text_app. reflexivity. Qed.

(** C8 (as the code has it).  Every written string is exactly one line of
    text.  A [G0] or [G1] line is the command, [X], the first coordinate,
    [Y], the second coordinate (and [F] with the feed rate), each coordinate
    in the [.3f] format: a finite coordinate is written as an optional minus
    sign, at least one digit, a point and exactly three digits, a coordinate
    that is not finite as [inf], [-inf] or [nan].  The last line of every
    program, and the end of its text, is the literal [G0 X0 Y0], without
    decimals. *)
Theorem C8_serialization
    (l : gline) (x y : pyfloat) (f : Z) (q : Q)
    (contours : list contour) (power feed_rate : Z) (scale_factor offset_x offset_y : Q)
    (py_float : string -> option Q) (paths : list path) (attrs : gmap string string)
    (target : option Q) (placement : option (Q * Q)) :
  single_line (render l) = true
  /\ render (G0 x y) = "G0 X" +:+ format_3f x +:+ " Y" +:+ format_3f y +:+ newline
  /\ render (G1 x y f)
     = "G1 X" +:+ format_3f x +:+ " Y" +:+ format_3f y +:+ " F" +:+ str_int f +:+ newline
  /\ fixed3 (format_3f (Fin q))
  /\ (format_3f PInf = "inf" /\ format_3f NInf = "-inf" /\ format_3f NaN = "nan")
  /\ (let lines := generate_gcode contours power feed_rate scale_factor offset_x offset_y in
      List.last lines G21 = G0_X0_Y0
      /\ exists before, file_text lines = before +:+ "G0 X0 Y0" +:+ newline)
  /\ match svg_to_gcode py_float paths attrs power feed_rate target placement with
     | Ok lines =>
         List.last lines G21 = G0_X0_Y0
         /\ exists before, file_text lines = before +:+ "G0 X0 Y0" +:+ newline
     | Raise _ => True
     end
  /\ render G0_X0_Y0 = "G0 X0 Y0" +:+ newline.
Proof.
  split; [apply render_single_line|]. split; [reflexivity|]. split; [reflexivity|].
  split; [apply format_3f_fixed3|]. split; [repeat split|]. split; [|split].
  - rewrite generate_gcode_lines. split; [apply last_program|].
    eexists. apply file_text_program.
  - destruct (svg_to_gcode _ _ _ _ _ _ _) as [lines|e] eqn:E; [|exact I].
    destruct (svg_to_gcode_inv _ _ _ _ _ _ _ _ E)
      as (paths' & s & mx & h & ox & oy & _ & _ & ->).
    split; [apply last_program|]. eexists. apply file_text_program.
  - reflexivity.
Qed.

(** C8, as stated, fails: the closing move is written [G0 X0 Y0], not
    [G0 X0.000 Y0.000]. *)
Lemma C8_home_line_without_decimals :
  let raster := generate_gcode [] 1000 1000 1 0 0 in
  let attrs : gmap string string := {[ "viewBox" := "0 0 10 10" ]} in
  render (List.last raster G21) = "G0 X0 Y0" +:+ newline
  /\ render (List.last raster G21) <> "G0 X0.000 Y0.000" +:+ newline
  /\ exists vector,
      svg_to_gcode float_of_decimal [] attrs 1000 1000 None None = Ok vector
      /\ render (List.last vector G21) <> "G0 X0.000 Y0.000" +:+ newline.
Proof.
  intros raster attrs. split; [reflexivity|]. split; [vm_compute; intros H; discriminate H|].
  eexists. split; [vm_compute; reflexivity|]. vm_compute. intros H; discriminate H.
Qed.


(** * Further properties of the two programs *)

(** ** Laser discipline *)

Lemma laser_run_app (on : bool) (l1 l2 : list gline) :
  laser_run on (l1 ++ l2)
  = match laser_run on l1 with
    | Some on' => laser_run on' l2
    | None => None
    end.
Proof.
  revert on; induction l1 as [|l l1 IH]; intros on; simpl; [reflexivity|].
  destruct l; try apply IH; destruct on; try reflexivity; apply IH.
Qed.

Lemma laser_run_cuts (on : bool) (feed_rate : Z) (s ox oy : Q) (ps : contour) :
  laser_run true (map (g1_of feed_rate s ox oy) ps) = Some true.
Proof. induction ps as [|p ps IH]; simpl; trivial. Qed.

Lemma laser_run_contour (power feed_rate : Z) (s ox oy : Q) (c : contour) :
  laser_run false (contour_lines power feed_rate s ox oy c) = Some false.
Proof.
  destruct c as [|p ps]; simpl; [reflexivity|].
  rewrite laser_run_app, (laser_run_cuts true). reflexivity.
Qed.

Lemma laser_run_contours (power feed_rate : Z) (s ox oy : Q) (cs : list contour) :
  laser_run false (flat_map (contour_lines power feed_rate s ox oy) cs) = Some false.
Proof.
  induction cs as [|c cs IH]; simpl; [reflexivity|].
  now rewrite laser_run_app, laser_run_contour.
Qed.

Lemma laser_run_segments (s mx ox oy : pyfloat) (feed_rate power : Z) (sgs : list segment) :
  laser_run false (flat_map (segment_lines s mx ox oy feed_rate power) sgs) = Some false.
Proof. induction sgs as [|sg sgs IH]; simpl; trivial. Qed.

Lemma laser_safe_program (note : m5_note) (body : list gline) :
  laser_run false body = Some false ->
  laser_safe ([G21; G90; M5 note] ++ body ++ [G0_X0_Y0]) = true.
Proof.
  intros E. unfold laser_safe. simpl. rewrite laser_run_app, E. reflexivity.
Qed.

(** X1.  In every program the raster converter writes, also for contours
    without points, each rapid move is made with the laser off, each cutting
    move with the laser on, and the laser is off at the end, whatever the
    state of the machine before the program; [image_to_gcode] hands out
    nothing else. *)
Theorem X1_raster_laser_discipline
    (contours : list contour) (power feed_rate : Z) (scale_factor offset_x offset_y : Q)
    (image : Type) (shape : image -> list Z) (drop_alpha : image -> image)
    (threshold_image : image -> option Q -> bitmap) (GaussianBlur : bitmap -> Q -> bitmap)
    (findContours : bitmap -> list contour)
    (imread : option image) (threshold longest_side : option Q)
    (center_offset : option (Q * Q)) :
  laser_safe (generate_gcode contours power feed_rate scale_factor offset_x offset_y) = true
  /\ match image_to_gcode image shape drop_alpha threshold_image GaussianBlur findContours
             imread threshold power feed_rate longest_side center_offset with
     | Ok lines => laser_safe lines = true
     | Raise _ => True
     end.
Proof.
  assert (G : forall cs p f s ox oy, laser_safe (generate_gcode cs p f s ox oy) = true).
  { intros. rewrite generate_gcode_lines. apply laser_safe_program, laser_run_contours. }
  split; [apply G|].
  unfold image_to_gcode. destruct imread as [img|]; [|exact I].
  destruct (image_contours _ _ _ _ _ _ img threshold) as [[img' cs]|e]; simpl; [|exact I].
  destruct (raster_transform (shape img') longest_side center_offset) as [[[s ox] oy]|e];
    simpl; [apply G|exact I].
Qed.

(** X2.  Every program the vector converter writes keeps the same
    discipline: rapid moves with the laser off, cutting moves with the laser
    on, laser off at the end. *)
Theorem X2_vector_laser_discipline
    (py_float : string -> option Q) (paths : list path) (attrs : gmap string string)
    (power feed_rate : Z) (target : option Q) (placement : option (Q * Q))
    (lines : list gline) :
  svg_to_gcode py_float paths attrs power feed_rate target placement = Ok lines ->
  laser_safe lines = true.
Proof.
  intros E.
  destruct (svg_to_gcode_inv _ _ _ _ _ _ _ _ E) as (paths' & s & mx & h & ox & oy & _ & _ & ->).
  apply laser_safe_program, laser_run_segments.
Qed.

(** X2 at a concrete input: two segments in a 10 by 10 document. *)
Lemma X2_witness :
  let paths := [[Line (Complex 0 0) (Complex 10 4); Line (Complex 10 4) (Complex 2 2)]] in
  exists lines,
    svg_to_gcode float_of_decimal paths {[ "viewBox" := "0 0 10 10" ]} 800 500 None None
    = Ok lines
    /\ laser_safe lines = true.
Proof.
  intros paths. eexists. split; [vm_compute; reflexivity|].
  apply (X2_vector_laser_discipline float_of_decimal paths {[ "viewBox" := "0 0 10 10" ]}
           800 500 None None).
  vm_compute. reflexivity.
Defined.

(** ** Size of the written file *)

Lemma count_newlines_app (a b : string) :
  count_newlines (a +:+ b) = (count_newlines a + count_newlines b)%nat.
Proof. induction a as [|c a IH]; simpl; [reflexivity|]. rewrite IH. lia. Qed.

Lemma single_line_count (s : string) : single_line s = true -> count_newlines s = 1%nat.
Proof.
  induction s as [|c s IH]; simpl; [discriminate|].
  destruct (is_newline c).
  - destruct s; [reflexivity|discriminate].
  - exact IH.
Qed.

Lemma file_text_newlines (ls : list gline) : count_newlines (file_text ls) = length ls.
Proof.
  unfold file_text. induction ls as [|l ls IH]; simpl; [reflexivity|].
  now rewrite count_newlines_app, IH, (single_line_count _ (render_single_line l)).
Qed.

Lemma contour_lines_length (power feed_rate : Z) (s ox oy : Q) (c : contour) :
  length (contour_lines power feed_rate s ox oy c) = contour_line_count c.
Proof.
  destruct c as [|p ps]; simpl; [reflexivity|].
  rewrite length_app, length_map. simpl. lia.
Qed.

(** X3.  The raster converter writes three setup lines, for each contour of
    [n > 0] points [n + 2] lines and for a contour without points one line,
    and the closing line; the text of the file has exactly that many line
    feeds. *)
Theorem X3_raster_line_count
    (contours : list contour) (power feed_rate : Z) (scale_factor offset_x offset_y : Q) :
  let lines := generate_gcode contours power feed_rate scale_factor offset_x offset_y in
  length lines = (3 + list_sum (map contour_line_count contours) + 1)%nat
  /\ count_newlines (file_text lines) = length lines.
Proof.
  intros lines. split; [|apply file_text_newlines].
  assert (L : length (flat_map (contour_lines power feed_rate scale_factor offset_x offset_y)
                        contours)
              = list_sum (map contour_line_count contours)).
  { induction contours as [|c cs IH]; simpl; [reflexivity|].
    now rewrite length_app, contour_lines_length, IH. }
  unfold lines. rewrite generate_gcode_lines. simpl. rewrite length_app, L. simpl. lia.
Qed.

(** X4.  The vector converter writes three setup lines, four lines for every
    segment of every path and the closing line; the text of the file has
    exactly that many line feeds. *)
Theorem X4_vector_line_count
    (py_float : string -> option Q) (paths : list path) (attrs : gmap string string)
    (power feed_rate : Z) (target : option Q) (placement : option (Q * Q))
    (lines : list gline) :
  svg_to_gcode py_float paths attrs power feed_rate target placement = Ok lines ->
  length lines = (3 + 4 * list_sum (map (@length segment) paths) + 1)%nat
  /\ count_newlines (file_text lines) = length lines.
Proof.
  intros E. split; [|apply file_text_newlines].
  destruct (svg_to_gcode_inv _ _ _ _ _ _ _ _ E) as (paths' & s & mx & h & ox & oy & Ec & _ & ->).
  apply calculate_inv in Ec. destruct Ec as (_ & -> & _ & _).
  assert (L : forall sgs,
             length (flat_map (segment_lines s mx ox oy feed_rate power) sgs)
             = (4 * length sgs)%nat).
  { induction sgs as [|sg sgs IH]; [reflexivity|].
    change (flat_map (segment_lines s mx ox oy feed_rate power) (sg :: sgs))
      with (segment_lines s mx ox oy feed_rate power sg
              ++ flat_map (segment_lines s mx ox oy feed_rate power) sgs).
    rewrite length_app, IH. simpl. lia. }
  assert (C : forall ps : list path,
             length (concat ps) = list_sum (map (@length segment) ps)).
  { induction ps as [|p ps IH]; simpl; [reflexivity|]. now rewrite length_app, IH. }
  rewrite length_app, length_app, L, concat_flip_paths, length_map, C. simpl. lia.
Qed.

(** X4 at a concrete input: a path of two segments and a path of one. *)
Lemma X4_witness :
  let paths := [[Line (Complex 0 0) (Complex 10 4); Line (Complex 10 4) (Complex 2 2)];
                [Arc (Complex 1 1) (Complex 2 2) 0 false true (Complex 3 1)]] in
  exists lines,
    svg_to_gcode float_of_decimal paths {[ "viewBox" := "0 0 10 10" ]} 800 500
      (Some 20%Q) (Some (5%Q, 5%Q)) = Ok lines
    /\ length lines = 16%nat.
Proof.
  intros paths. eexists. split; [vm_compute; reflexivity|].
  apply (X4_vector_line_count float_of_decimal paths {[ "viewBox" := "0 0 10 10" ]}
           800 500 (Some 20%Q) (Some (5%Q, 5%Q))).
  vm_compute. reflexivity.
Defined.

(** ** Reading the declared height *)

(** X5.  When the document has a [viewBox], nothing else is consulted: the
    result is that of a document with the [viewBox] alone, whatever other
    attributes are declared, so the unbound name of the [height] branch is
    never reached and the only exception reading the height can raise is
    [ValueError]. *)
Theorem X5_view_box_takes_precedence
    (py_float : string -> option Q) (attrs : gmap string string) (view_box : string) :
  attrs !! "viewBox" = Some view_box ->
  svg_height_of py_float attrs = svg_height_of py_float {[ "viewBox" := view_box ]}
  /\ forall e, svg_height_of py_float attrs = Raise e -> e = ValueError.
Proof.
  intros E.
  assert (E' : ({[ "viewBox" := view_box ]} : gmap string string) !! "viewBox" = Some view_box)
    by apply lookup_singleton_eq.
  unfold svg_height_of. rewrite E, E'. split; [reflexivity|].
  intros e.
  destruct (map py_float (py_split view_box)) as [|[a|] [|[b|] [|[c|] [|[d|] [|x l]]]]];
    intros H; try discriminate H; injection H as <-; reflexivity.
Qed.

(** X5 at a concrete input: a document with both attributes. *)
Lemma X5_witness :
  let attrs : gmap string string := <[ "height" := "50mm" ]> {[ "viewBox" := "0 0 200 100" ]} in
  attrs !! "viewBox" = Some "0 0 200 100"
  /\ svg_height_of float_of_decimal attrs
     = svg_height_of float_of_decimal {[ "viewBox" := "0 0 200 100" ]}.
Proof.
  intros attrs.
  assert (E : attrs !! "viewBox" = Some "0 0 200 100") by (vm_compute; reflexivity).
  split; [exact E|].
  exact (proj1 (X5_view_box_takes_precedence float_of_decimal attrs "0 0 200 100" E)).
Defined.

(** ** Division by zero in the vector converter *)

Lemma svg_height_never_divides (py_float : string -> option Q) (attrs : gmap string string) :
  svg_height_of py_float attrs <> Raise ZeroDivisionError.
Proof.
  unfold svg_height_of.
  destruct (attrs !! "viewBox") as [vb|].
  - destruct (map py_float (py_split vb)) as [|[a|] [|[b|] [|[c|] [|[d|] [|x l]]]]];
      discriminate.
  - destruct (attrs !! "height"); discriminate.
Qed.

(** X7.  The scale computation raises [ZeroDivisionError] exactly when the
    height can be read, a target size is given and the scanned bounding box
    has a finite longest side equal to zero; in particular never without a
    target and never for a scene without segments. *)
Theorem X7_zero_division_exactly_when_flat
    (py_float : string -> option Q) (paths : list path) (attrs : gmap string string)
    (target : option Q) :
  calculate_scaling_factor_and_transform py_float paths attrs target = Raise ZeroDivisionError
  <-> (exists h, svg_height_of py_float attrs = Ok h)
      /\ exists t l,
          target = Some t
          /\ longest_side_of (scan_paths paths) = Fin l
          /\ (l == 0)%Q.
Proof.
  unfold calculate_scaling_factor_and_transform.
  pose proof (svg_height_never_divides py_float attrs) as N.
  destruct (svg_height_of py_float attrs) as [h|e0]; simpl.
  - destruct target as [t|]; simpl.
    + unfold fdiv. destruct (longest_side_of (scan_paths paths)) as [l| | |]; simpl.
      * destruct (Qeq_bool l 0) eqn:El; simpl.
        -- apply Qeq_bool_iff in El. split; [|reflexivity].
           intros _. split; [eauto|]. exists t, l. auto.
        -- split; [discriminate|]. intros (_ & t' & l' & _ & El' & Hl').
           injection El' as <-. apply Qeq_bool_iff in Hl'. congruence.
      * split; [discriminate|]. intros (_ & t' & l' & _ & El' & _). discriminate.
      * split; [discriminate|]. intros (_ & t' & l' & _ & El' & _). discriminate.
      * split; [discriminate|]. intros (_ & t' & l' & _ & El' & _). discriminate.
    + split; [discriminate|]. intros (_ & t & l & Et & _). discriminate.
  - split.
    + intros E. congruence.
    + intros ((h & Eh) & _). discriminate.
Qed.

(** ** The flip and the scanned box *)

Lemma longest_side_nonempty (qpts : list (Q * Q)) :
  qpts <> [] -> exists l, longest_side_of (bbox_of_points (map lift_point qpts)) = Fin l.
Proof.
  intros NE. rewrite bbox_of_points_lift.
  destruct (lo_nonempty (map fst qpts)) as (mx & -> & _); [destruct qpts; [congruence|discriminate]|].
  destruct (lo_nonempty (map snd qpts)) as (my & -> & _); [destruct qpts; [congruence|discriminate]|].
  destruct (hi_nonempty (map fst qpts)) as (Mx & -> & _); [destruct qpts; [congruence|discriminate]|].
  destruct (hi_nonempty (map snd qpts)) as (My & -> & _); [destruct qpts; [congruence|discriminate]|].
  unfold longest_side_of, py_max2. simpl. destruct (Qlt_bool _ _); eauto.
Qed.

(** X8.  Scanning the bounding box before the flip, as the code does, or
    after it gives the same left and right edge and the same longest side:
    the flip mirrors the scene inside the document without resizing it. *)
Theorem X8_flip_keeps_the_box (h : Q) (paths : list path) :
  min_x (scan_paths (flip_paths h paths)) = min_x (scan_paths paths)
  /\ max_x (scan_paths (flip_paths h paths)) = max_x (scan_paths paths)
  /\ feq (longest_side_of (scan_paths (flip_paths h paths)))
         (longest_side_of (scan_paths paths)).
Proof.
  assert (Ex : map fst (seg_xy (concat (flip_paths h paths))) = map fst (seg_xy (concat paths))).
  { rewrite concat_flip_paths, seg_xy_flip, map_map. reflexivity. }
  split; [|split].
  - rewrite !scan_paths_lo_hi. simpl. now rewrite Ex.
  - rewrite !scan_paths_lo_hi. simpl. now rewrite Ex.
  - rewrite !scan_paths_points, concat_flip_paths, seg_xy_flip.
    destruct (concat paths) as [|sg sgs] eqn:Ep; [exact I|].
    destruct (longest_side_nonempty (seg_xy (sg :: sgs))) as (l & El); [discriminate|].
    destruct (longest_side_scaled (seg_xy (sg :: sgs)) (fun x => x) (fun y => h - y)%Q
                1 0 (- (1)) h l) as (l' & El' & Hl'); trivial.
    + reflexivity.
    + intros x. ring.
    + intros y. ring.
    + right. reflexivity.
    + rewrite El', El. simpl. rewrite Hl'. ring.
Qed.

(** ** A target size of zero *)

(** X10.  The raster converter treats a target size of zero as no target at
    all: the scale is 1 and the image shape is not even looked at, so
    nothing can fail. *)
Theorem X10_raster_zero_target_ignored
    (shape : list Z) (t : Q) (placement : option (Q * Q)) :
  (t == 0)%Q ->
  raster_transform shape (Some t) placement = raster_transform shape None placement
  /\ raster_transform shape (Some t) placement
     = Ok (1%Q, fst (default_placement placement), snd (default_placement placement)).
Proof.
  intros Ht. apply Qeq_bool_iff in Ht. unfold raster_transform. rewrite Ht. simpl.
  destruct placement as [[a b]|]; split; reflexivity.
Qed.

(** X10 at a concrete input: target 0 and an image without dimensions. *)
Lemma X10_witness :
  raster_transform [] (Some 0%Q) None = raster_transform [] None None.
Proof.
  refine (proj1 (X10_raster_zero_target_ignored [] 0%Q None _)). reflexivity.
Defined.

(** ** Where the vector converter writes the scene *)

Lemma seg_xy_nonempty (sgs : list segment) : sgs <> [] -> seg_xy sgs <> [].
Proof. destruct sgs; [congruence|discriminate]. Qed.

(** A successful conversion of a scene with at least one segment: all the
    quantities are finite, and the written points are the end points
    shifted to the left edge, mirrored, scaled and offset. *)
Lemma svg_written_points
    (py_float : string -> option Q) (paths : list path) (attrs : gmap string string)
    (power feed_rate : Z) (target : option Q) (placement : option (Q * Q))
    (lines : list gline) :
  svg_to_gcode py_float paths attrs power feed_rate target placement = Ok lines ->
  concat paths <> [] ->
  exists s m h ox oy l,
    calculate_scaling_factor_and_transform py_float paths attrs target
    = Ok (flip_paths h paths, (Fin s, Fin m, h))
    /\ svg_offsets (Fin s) (Fin m) h placement = Ok (Fin ox, Fin oy)
    /\ lower m (map fst (seg_xy (concat paths)))
    /\ longest_side_of (scan_paths paths) = Fin l
    /\ (0 <= l)%Q
    /\ match target with
       | None => s = 1%Q
       | Some t => s = (t / l)%Q /\ ~ (l == 0)%Q
       end
    /\ points_of lines
       = map lift_point
           (map (fun p => ((fst p - m) * s + ox, (h - snd p) * s + oy)%Q)
              (seg_xy (concat paths))).
Proof.
  intros E NE.
  destruct (svg_to_gcode_inv _ _ _ _ _ _ _ _ E)
    as (paths' & s0 & mx & h & ox0 & oy0 & Ec & Eo & ->).
  pose proof Ec as Ec'. apply calculate_inv in Ec'. destruct Ec' as (_ & -> & -> & Es).
  destruct (longest_side_nonempty _ (seg_xy_nonempty _ NE)) as (l & El).
  destruct (longest_side_finite _ _ El)
    as (m & my & Mx & My & Hm & Hmy & HMx & HMy & Eb & ->).
  rewrite <- scan_paths_points in El, Eb. rewrite Eb in *. simpl in Eo, Ec.
  assert (Hw : (0 <= Mx - m)%Q).
  { destruct Hm as [(x & Hx & Ex) _]. destruct HMx as [_ HM]. specialize (HM x Hx). lra. }
  assert (Hl : (0 <= (if Qlt_bool (Mx - m) (My - my) then My - my else Mx - m))%Q).
  { destruct (Qlt_bool (Mx - m) (My - my)) eqn:C; [|exact Hw].
    apply Qlt_bool_iff in C. lra. }
  set (l := (if Qlt_bool (Mx - m) (My - my) then My - my else Mx - m)%Q) in *.
  assert (Hs : exists s, s0 = Fin s
                         /\ match target with
                            | None => s = 1%Q
                            | Some t => s = (t / l)%Q /\ ~ (l == 0)%Q
                            end).
  { rewrite El in Es. destruct target as [t|].
    - unfold fdiv in Es. simpl in Es. destruct (Qeq_bool l 0) eqn:C; [discriminate|].
      injection Es as <-. eexists. split; [reflexivity|]. split; [reflexivity|].
      intros H0. apply Qeq_bool_iff in H0. congruence.
    - injection Es as <-. eauto. }
  destruct Hs as (s & -> & Hs).
  destruct (svg_offsets_finite s m h placement) as (ox & oy & Eo').
  rewrite Eo' in Eo. injection Eo as <- <-.
  exists s, m, h, ox, oy, l. repeat (split; [assumption|]).
  rewrite points_of_program by reflexivity. cbn [min_x].
  rewrite concat_flip_paths, points_of_segments, seg_xy_flip, !map_map. reflexivity.
Qed.

(** X9.  When the vector converter succeeds on a scene with at least one
    segment and the target size, if any, is positive, the scale is positive
    and the written scene starts at the X offset: no written X is smaller
    than it and some written X equals it. *)
Theorem X9_left_edge_at_offset
    (py_float : string -> option Q) (paths : list path) (attrs : gmap string string)
    (power feed_rate : Z) (target : option Q) (placement : option (Q * Q))
    (lines : list gline) :
  svg_to_gcode py_float paths attrs power feed_rate target placement = Ok lines ->
  concat paths <> [] ->
  (forall t, target = Some t -> (0 < t)%Q) ->
  exists s m h ox oy,
    calculate_scaling_factor_and_transform py_float paths attrs target
    = Ok (flip_paths h paths, (Fin s, Fin m, h))
    /\ svg_offsets (Fin s) (Fin m) h placement = Ok (Fin ox, Fin oy)
    /\ (0 < s)%Q
    /\ (forall x y, In (x, y) (points_of lines) -> exists qx, x = Fin qx /\ (ox <= qx)%Q)
    /\ exists qx y, In (Fin qx, y) (points_of lines) /\ (qx == ox)%Q.
Proof.
  intros E NE Ht.
  destruct (svg_written_points _ _ _ _ _ _ _ _ E NE)
    as (s & m & h & ox & oy & l & Ec & Eo & Hm & El & Hl & Hs & ->).
  assert (Hs0 : (0 < s)%Q).
  { destruct target as [t|]; [|subst s; reflexivity].
    destruct Hs as [-> Hl0]. specialize (Ht t eq_refl).
    apply Qlt_shift_div_l; lra. }
  exists s, m, h, ox, oy. repeat (split; [assumption|]). split.
  - intros x y Hin. rewrite map_map in Hin. apply in_map_iff in Hin.
    destruct Hin as (p & Ep & Hp). injection Ep as <- <-.
    eexists. split; [reflexivity|].
    destruct Hm as [_ Hm]. specialize (Hm (fst p) (in_map fst _ _ Hp)). simpl. nra.
  - destruct Hm as [(x0 & Hx0 & Ex0) _]. apply in_map_iff in Hx0.
    destruct Hx0 as (p & <- & Hp).
    exists ((fst p - m) * s + ox)%Q, (Fin ((h - snd p) * s + oy)). split.
    + rewrite map_map. apply in_map_iff. exists p. split; [reflexivity|exact Hp].
    + rewrite Ex0. ring.
Qed.

(** X9 at a concrete input: one segment from (2,0) to (10,4), target 20. *)
Lemma X9_witness :
  let paths := [[Line (Complex 2 0) (Complex 10 4)]] in
  let attrs : gmap string string := {[ "viewBox" := "0 0 10 10" ]} in
  exists lines,
    svg_to_gcode float_of_decimal paths attrs 800 500 (Some 20%Q) None = Ok lines
    /\ exists s m h ox oy,
        svg_offsets (Fin s) (Fin m) h None = Ok (Fin ox, Fin oy)
        /\ exists qx y, In (Fin qx, y) (points_of lines) /\ (qx == ox)%Q.
Proof.
  intros paths attrs. eexists. split; [vm_compute; reflexivity|].
  destruct (X9_left_edge_at_offset float_of_decimal paths attrs 800 500 (Some 20%Q) None _
              ltac:(vm_compute; reflexivity) ltac:(discriminate)
              ltac:(intros t Et; injection Et as <-; reflexivity))
    as (s & m & h & ox & oy & _ & Eo & _ & _ & Hx).
  exists s, m, h, ox, oy. split; [exact Eo|exact Hx].
Defined.

(** X11.  The vector converter does take a target size of zero: when it
    succeeds on a scene with at least one segment, the scale is zero and
    every written point is the offset point itself. *)
Theorem X11_vector_zero_target_collapses
    (py_float : string -> option Q) (paths : list path) (attrs : gmap string string)
    (power feed_rate : Z) (t : Q) (placement : option (Q * Q)) (lines : list gline) :
  svg_to_gcode py_float paths attrs power feed_rate (Some t) placement = Ok lines ->
  concat paths <> [] ->
  (t == 0)%Q ->
  exists s m h ox oy,
    calculate_scaling_factor_and_transform py_float paths attrs (Some t)
    = Ok (flip_paths h paths, (Fin s, Fin m, h))
    /\ svg_offsets (Fin s) (Fin m) h placement = Ok (Fin ox, Fin oy)
    /\ (s == 0)%Q
    /\ Forall (fun p => feq (fst p) (Fin ox) /\ feq (snd p) (Fin oy)) (points_of lines).
Proof.
  intros E NE Ht.
  destruct (svg_written_points _ _ _ _ _ _ _ _ E NE)
    as (s & m & h & ox & oy & l & Ec & Eo & _ & _ & _ & [Es Hl0] & ->).
  assert (Hs : (s == 0)%Q) by (rewrite Es, Ht; field; exact Hl0).
  exists s, m, h, ox, oy. repeat (split; [assumption|]).
  rewrite map_map. apply Forall_map, Forall_forall. intros p _. simpl.
  split; rewrite Hs; ring.
Qed.

(** X11 at a concrete input: one segment, target 0. *)
Lemma X11_witness :
  let paths := [[Line (Complex 2 0) (Complex 10 4)]] in
  let attrs : gmap string string := {[ "viewBox" := "0 0 10 10" ]} in
  exists lines,
    svg_to_gcode float_of_decimal paths attrs 800 500 (Some 0%Q) None = Ok lines
    /\ exists ox oy,
        Forall (fun p => feq (fst p) (Fin ox) /\ feq (snd p) (Fin oy)) (points_of lines).
Proof.
  intros paths attrs. eexists. split; [vm_compute; reflexivity|].
  destruct (X11_vector_zero_target_collapses float_of_decimal paths attrs 800 500 0%Q None _
              ltac:(vm_compute; reflexivity) ltac:(discriminate) ltac:(reflexivity))
    as (s & m & h & ox & oy & _ & _ & _ & F).
  exists ox, oy. exact F.
Defined.

(** X12.  Vertically the vector converter places the middle of the declared
    height: at any finite scale, a point at half the declared height is
    written, after flip, scale and offset, at the Y of the requested
    placement (at 0 without a placement). *)
Theorem X12_mid_height_lands_on_placement
    (s m h : Q) (placement : option (Q * Q)) (c : complex) :
  (imag c == h / 2)%Q ->
  exists ox oy,
    svg_offsets (Fin s) (Fin m) h placement = Ok (ox, oy)
    /\ feq (snd (svg_point (Fin s) (Fin m) ox oy (seg_start (flip_line h (Line c c)))))
           (Fin (snd (default_placement placement))).
Proof.
  intros Hc. destruct placement as [[px py]|]; eexists; eexists;
    (split; [reflexivity|]); simpl; rewrite Hc; field.
Qed.

(** X12 at a concrete input: height 10, a point at y = 5, scale 3. *)
Lemma X12_witness :
  exists ox oy,
    svg_offsets (Fin 3) (Fin 1) 10 (Some (7%Q, 4%Q)) = Ok (ox, oy)
    /\ feq (snd (svg_point (Fin 3) (Fin 1) ox oy
                   (seg_start (flip_line 10 (Line (Complex 2 5) (Complex 2 5))))))
           (Fin 4).
Proof.
  exact (X12_mid_height_lands_on_placement 3 1 10 (Some (7%Q, 4%Q)) (Complex 2 5)
           ltac:(reflexivity)).
Defined.

(** ** The written numbers *)

Lemma floor_of_equal_fractions (n d n' d' fl r fl' r' : Z) :
  0 < d -> 0 < d' -> n * d' = n' * d ->
  n = d * fl + r -> 0 <= r < d -> n' = d' * fl' + r' -> 0 <= r' < d' -> fl = fl'.
Proof.
  intros Hd Hd' E D B D' B'.
  assert (K : d * d' * (fl - fl') = r' * d - r * d') by (subst n n'; ring_simplify in E; lia).
  assert (0 <= r' * d < d' * d) by nia.
  assert (0 <= r * d' < d * d') by nia.
  destruct (Z.lt_trichotomy fl fl') as [H1|[H1|H1]]; [exfalso|assumption|exfalso].
  - assert (d * d' * (fl - fl') <= - (d * d')) by nia. lia.
  - assert (d * d' <= d * d' * (fl - fl')) by nia. lia.
Qed.

Lemma round_half_even_Qeq (q q' : Q) : (q == q')%Q -> round_half_even q = round_half_even q'.
Proof.
  destruct q as [n d], q' as [n' d']. unfold Qeq, round_half_even. simpl. intros E.
  pose proof (Z.div_mod n (Z.pos d) ltac:(lia)) as D.
  pose proof (Z.mod_pos_bound n (Z.pos d) ltac:(lia)) as B.
  pose proof (Z.div_mod n' (Z.pos d') ltac:(lia)) as D'.
  pose proof (Z.mod_pos_bound n' (Z.pos d') ltac:(lia)) as B'.
  set (fl := n / Z.pos d) in *. set (r := n mod Z.pos d) in *.
  set (fl' := n' / Z.pos d') in *. set (r' := n' mod Z.pos d') in *.
  assert (F : fl = fl').
  { apply (floor_of_equal_fractions n (Z.pos d) n' (Z.pos d') fl r fl' r'); trivial; lia. }
  rewrite <- F in *. clearbody fl' fl r r'.
  assert (R : r * Z.pos d' = r' * Z.pos d) by nia.
  destruct (Z.compare_spec (2 * r) (Z.pos d)) as [C|C|C];
    destruct (Z.compare_spec (2 * r') (Z.pos d')) as [C'|C'|C']; try reflexivity; nia.
Qed.

Lemma Qlt_bool_Qeq (q q' : Q) : (q == q')%Q -> Qlt_bool q 0 = Qlt_bool q' 0.
Proof.
  intros E. destruct (Qlt_bool q 0) eqn:A; destruct (Qlt_bool q' 0) eqn:B; trivial.
  - apply Qlt_bool_iff in A. apply Qlt_bool_false in B. lra.
  - apply Qlt_bool_false in A. apply Qlt_bool_iff in B. lra.
Qed.

(** The text of a number depends on its value only, not on the fraction
    that represents it. *)
Lemma format_3f_Qeq (q q' : Q) : (q == q')%Q -> format_3f_Q q = format_3f_Q q'.
Proof.
  intros E. unfold format_3f_Q.
  rewrite (Qlt_bool_Qeq q q' E).
  rewrite (round_half_even_Qeq (Qabs q * 1000) (Qabs q' * 1000)); [reflexivity|].
  now rewrite E.
Qed.

Lemma str_int_sign (k : Z) :
  str_int k = (if k <? 0 then "-" else "") +:+ str_nat (Z.abs k).
Proof. destruct k; reflexivity. Qed.

Lemma format_3f_integer (k : Z) (q : Q) :
  (q == inject_Z k)%Q -> format_3f_Q q = str_int k +:+ ".000".
Proof.
  intros E. rewrite (format_3f_Qeq _ _ E), str_int_sign. unfold format_3f_Q.
  assert (M : round_half_even (Qabs (inject_Z k) * 1000) = Z.abs k * 1000).
  { unfold round_half_even, inject_Z, Qabs, Qmult. simpl.
    rewrite Z.div_1_r, Z.mod_1_r. reflexivity. }
  rewrite M.
  assert (L : Qlt_bool (inject_Z k) 0 = (k <? 0)).
  { destruct (Z.ltb_spec k 0) as [H|H].
    - apply Qlt_bool_iff. unfold Qlt, inject_Z. simpl. lia.
    - apply Qlt_bool_false. unfold Qle, inject_Z. simpl. lia. }
  rewrite L, Z.div_mul by lia.
  replace ((Z.abs k * 1000) mod 1000) with 0 by (symmetry; apply Z.mod_mul; lia).
  replace ((Z.abs k * 1000) mod 100) with 0
    by (symmetry; replace (Z.abs k * 1000) with (Z.abs k * 10 * 100) by lia;
        apply Z.mod_mul; lia).
  replace ((Z.abs k * 1000) mod 10) with 0
    by (symmetry; replace (Z.abs k * 1000) with (Z.abs k * 100 * 10) by lia;
        apply Z.mod_mul; lia).
  destruct (k <? 0); reflexivity.
Qed.

(** X13.  When the scale factor and the offsets are whole numbers (as they
    are without target size and placement) and the scale factor, the
    offset, the product and the sum all fit a signed 32-bit integer, the
    raster converter writes the coordinate exactly: the integer
    [x * scale + offset] followed by [.000]. *)
Theorem X13_raster_integers_written_exactly (x y scale offset_x offset_y : Z) :
  fits_int32 scale -> fits_int32 offset_x -> fits_int32 offset_y ->
  fits_int32 x -> fits_int32 (x * scale) -> fits_int32 (x * scale + offset_x) ->
  fits_int32 y -> fits_int32 (y * scale) -> fits_int32 (y * scale + offset_y) ->
  let p := raster_point (inject_Z scale) (inject_Z offset_x) (inject_Z offset_y) (x, y) in
  format_3f (fst p) = str_int (x * scale + offset_x) +:+ ".000"
  /\ format_3f (snd p) = str_int (y * scale + offset_y) +:+ ".000".
Proof.
  intros _ _ _ _ _ _ _ _ _. simpl. split; apply format_3f_integer;
    rewrite inject_Z_plus, inject_Z_mult; reflexivity.
Qed.

(** X13 at a concrete input: pixel (3, 7), no target size, no placement. *)
Lemma X13_witness :
  format_3f (fst (raster_point 1 0 0 (3, 7))) = "3.000"
  /\ format_3f (snd (raster_point 1 0 0 (3, 7))) = "7.000".
Proof.
  apply (X13_raster_integers_written_exactly 3 7 1 0 0); unfold fits_int32; lia.
Defined.

(** ** Reading a written number back *)

Lemma uint_value_pos (u : Decimal.uint) (acc : positive) :
  uint_value u (Z.pos acc) = Z.pos (Pos.of_uint_acc u acc).
Proof.
  revert acc; induction u as [|u IH|u IH|u IH|u IH|u IH|u IH|u IH|u IH|u IH|u IH];
    intros acc; simpl; [reflexivity|..];
    match goal with
    | |- uint_value _ ?z = Z.pos (Pos.of_uint_acc _ ?a) =>
        replace z with (Z.pos a) by lia; apply IH
    end.
Qed.

Lemma uint_value_zero (u : Decimal.uint) : uint_value u 0 = Z.of_N (N.of_uint u).
Proof.
  unfold N.of_uint.
  induction u as [|u IH|u IH|u IH|u IH|u IH|u IH|u IH|u IH|u IH|u IH]; simpl;
    [reflexivity|exact IH|..]; apply (uint_value_pos u).
Qed.

Lemma uint_value_to_uint (k : Z) : 0 <= k -> uint_value (N.to_uint (Z.to_N k)) 0 = k.
Proof.
  intros H. rewrite uint_value_zero, DecimalN.Unsigned.of_to. lia.
Qed.

Lemma decimal_from_digit (a : Z) (rest : string) (m : Z) (d : positive) (dot any : bool) :
  0 <= a <= 9 ->
  decimal_from (String (digit_char a) rest) m d dot any
  = decimal_from rest (10 * m + a) (if dot then (10 * d)%positive else d) dot true.
Proof.
  intros H.
  assert (C : a = 0 \/ a = 1 \/ a = 2 \/ a = 3 \/ a = 4 \/ a = 5 \/ a = 6 \/ a = 7
              \/ a = 8 \/ a = 9) by lia.
  repeat (destruct C as [->|C]; [reflexivity|]). subst a. reflexivity.
Qed.

Lemma decimal_from_uint (u : Decimal.uint) (rest : string) (m : Z) (d : positive) (any : bool) :
  decimal_from (NilEmpty.string_of_uint u +:+ rest) m d false any
  = decimal_from rest (uint_value u m) d false
      (match u with Decimal.Nil => any | _ => true end).
Proof.
  revert m any; induction u as [|u IH|u IH|u IH|u IH|u IH|u IH|u IH|u IH|u IH|u IH];
    intros m any; [reflexivity|..];
    simpl; rewrite IH; destruct u; reflexivity.
Qed.

Lemma float_of_decimal_unsigned (c : ascii) (s : string) :
  is_digit c = true ->
  float_of_decimal (String c s) = decimal_from (String c s) 0 1 false false.
Proof.
  destruct c as [[] [] [] [] [] [] [] []]; intros H; try discriminate H; reflexivity.
Qed.

Lemma round_half_even_nonneg (q : Q) : (0 <= q)%Q -> 0 <= round_half_even q.
Proof.
  destruct q as [n d]. unfold Qle, round_half_even. simpl. intros H.
  assert (0 <= n / Z.pos d) by (apply Z.div_pos; lia).
  destruct (2 * (n mod Z.pos d) ?= Z.pos d); [destruct (Z.even _)|..]; lia.
Qed.

Lemma round_half_even_close (q : Q) : (Qabs (inject_Z (round_half_even q) - q) <= 1 # 2)%Q.
Proof.
  apply Qabs_Qle_condition.
  destruct q as [n d]. unfold round_half_even. cbn [Qnum Qden].
  pose proof (Z.div_mod n (Z.pos d) ltac:(lia)) as D.
  pose proof (Z.mod_pos_bound n (Z.pos d) ltac:(lia)) as B.
  set (fl := n / Z.pos d) in *. set (r := n mod Z.pos d) in *. clearbody fl r.
  assert (G : forall z : Z, (inject_Z z - (n # d) == (z * Z.pos d - n) # d)%Q).
  { intros z. unfold Qeq, inject_Z, Qminus, Qplus, Qopp. simpl. lia. }
  destruct (Z.compare_spec (2 * r) (Z.pos d)) as [C|C|C];
    [destruct (Z.even fl)|..]; rewrite G; unfold Qle; simpl; nia.
Qed.

Lemma decimal_from_str_nat (k : Z) (rest : string) (d : positive) (any : bool) :
  0 <= k ->
  decimal_from (str_nat k +:+ rest) 0 d false any = decimal_from rest k d false true.
Proof.
  intros H. unfold str_nat. rewrite <- (uint_value_to_uint k H) at 2.
  destruct (N.to_uint (Z.to_N k)) as [|u|u|u|u|u|u|u|u|u|u] eqn:E; [reflexivity|..];
    unfold NilZero.string_of_uint; rewrite decimal_from_uint; reflexivity.
Qed.

Lemma written_digits_value (m : Z) :
  0 <= m ->
  decimal_from
    (str_nat (m / 1000) +:+ "." +:+
     String (digit_char (m mod 1000 / 100))
       (String (digit_char (m mod 100 / 10)) (String (digit_char (m mod 10)) "")))
    0 1 false false
  = Some (m # 1000).
Proof.
  intros H.
  pose proof (Z.mod_pos_bound m 1000 eq_refl).
  pose proof (Z.mod_pos_bound m 100 eq_refl).
  pose proof (Z.mod_pos_bound m 10 eq_refl).
  assert (A : 0 <= m mod 1000 / 100 <= 9).
  { pose proof (Z.div_pos (m mod 1000) 100).
    pose proof (Z.div_lt_upper_bound (m mod 1000) 100 10). lia. }
  assert (B : 0 <= m mod 100 / 10 <= 9).
  { pose proof (Z.div_pos (m mod 100) 10).
    pose proof (Z.div_lt_upper_bound (m mod 100) 10 10). lia. }
  assert (C : 0 <= m mod 10 <= 9) by lia.
  rewrite decimal_from_str_nat by (apply Z.div_pos; lia).
  change (decimal_from ("." +:+ ?s) ?k 1 false true) with (decimal_from s k 1 true true).
  rewrite (decimal_from_digit _ _ _ _ _ _ A), (decimal_from_digit _ _ _ _ _ _ B),
    (decimal_from_digit _ _ _ _ _ _ C).
  simpl. f_equal. f_equal.
  pose proof (Z.div_mod m 1000 ltac:(lia)).
  pose proof (Z.div_mod m 100 ltac:(lia)).
  pose proof (Z.div_mod m 10 ltac:(lia)).
  pose proof (Z.div_mod (m mod 1000) 100 ltac:(lia)).
  pose proof (Z.div_mod (m mod 100) 10 ltac:(lia)).
  pose proof (Z.mod_pos_bound (m mod 1000) 100 eq_refl).
  pose proof (Z.mod_pos_bound (m mod 100) 10 eq_refl).
  lia.
Qed.

(** X14.  Every finite coordinate is written as a plain decimal numeral
    which, read back, differs from the computed coordinate by at most half
    a thousandth. *)
Theorem X14_written_number_within_half_a_thousandth (q : Q) :
  exists v : Q,
    float_of_decimal (format_3f (Fin q)) = Some v
    /\ (Qabs (v - q) <= 1 # 2000)%Q.
Proof.
  change (format_3f (Fin q)) with (format_3f_Q q).
  unfold format_3f_Q. set (m := round_half_even (Qabs q * 1000)).
  assert (Hm : 0 <= m).
  { apply round_half_even_nonneg. pose proof (Qabs_nonneg q). nra. }
  pose proof (written_digits_value m Hm) as V.
  pose proof (round_half_even_close (Qabs q * 1000)) as C. fold m in C.
  apply Qabs_Qle_condition in C.
  assert (Em : ((m # 1000) * 1000 == inject_Z m)%Q).
  { unfold Qeq, Qmult, inject_Z. simpl. lia. }
  destruct (Qlt_bool q 0) eqn:S.
  - apply Qlt_bool_iff in S. exists (- (m # 1000))%Q. split.
    + change (float_of_decimal ("-" +:+ ?s)) with (option_map Qopp (decimal_from s 0 1 false false)).
      now rewrite V.
    + rewrite (Qabs_neg q) in C by lra. apply Qabs_Qle_condition. lra.
  - apply Qlt_bool_false in S. exists (m # 1000)%Q. split.
    + change ("" +:+ ?s) with s.
      destruct (all_digits_str_nat (m / 1000)) as [Hd Hn].
      destruct (str_nat (m / 1000)) as [|c rest] eqn:E; [congruence|].
      simpl in Hd. apply andb_true_iff in Hd. destruct Hd as [Hc _].
      change (String c rest +:+ ?s) with (String c (rest +:+ s)) in *.
      rewrite (float_of_decimal_unsigned c _ Hc). exact V.
    + rewrite (Qabs_pos q) in C by lra. apply Qabs_Qle_condition. lra.
Qed.
